(** * milestone1.py: the validated weather observation model

    A shallow embedding of [src/milestone1.py] and the properties of its
    validation logic.

    Definitions:
    - [Text]: Python [str] as a sequence of Unicode code points, with the
      built-in methods the module calls ([strip], [join], [upper]).
    - [Float]: Python [float] as IEEE 754 binary64 ([spec_float] with
      precision 53 and [emax] 1024), its exact rational value, the
      conversions [float(int)] and [float(str)].
    - [Milestone1]: the module's functions and the [WeatherObservation]
      class; a method is a state transformer on the instance, and the
      instance stays as the assignments made it when an exception leaves
      the method. The debug representation ([__repr__], lines 186-194)
      only formats the attributes and is left out.
    - [Syntax]: the [def] headers of the file, their tokens and the grammar
      Python checks them against when it compiles the module.

    Properties:
    - [TextFacts], [FloatFacts], [RoundingFacts]: the built-ins; float
      comparison is comparison of exact values, and every conversion to
      [float] yields a binary64.
    - [Milestone1Facts], [SyntaxFacts], [Examples]: the module.
    - [Specification]: the statements of the specification.
    - [AttributeFacts], [Further]: the getters, the setters and [to_dict]
      together. *)

From Stdlib Require Import ZArith NArith QArith Qpower Bool List String Ascii Lia.
From Stdlib Require Import Floats.SpecFloat.
Import ListNotations.

Local Open Scope Z_scope.

(* ===================================================================== *)
(** * Text: [str] as code points *)
(* ===================================================================== *)

Module Text.

Definition char := N.
Definition str := list char.

(** A source literal, written as a Rocq string. *)
Definition lit (s : string) : str := map N_of_ascii (list_ascii_of_string s).

Definition char_eqb (a b : char) : bool := N.eqb a b.

Fixpoint str_eqb (a b : str) : bool :=
  match a, b with
  | [], [] => true
  | x :: a', y :: b' => char_eqb x y && str_eqb a' b'
  | _, _ => false
  end.

Definition between (lo hi c : N) : bool := (N.leb lo c && N.leb c hi)%bool.

(** [str.isspace] on one code point: the code points Python treats as
    whitespace. *)
Definition isspace (c : char) : bool :=
  (between 0x09 0x0D c || between 0x1C 0x1F c || N.eqb c 0x20
   || N.eqb c 0x85 || N.eqb c 0xA0 || N.eqb c 0x1680
   || between 0x2000 0x200A c || N.eqb c 0x2028 || N.eqb c 0x2029
   || N.eqb c 0x202F || N.eqb c 0x205F || N.eqb c 0x3000)%bool%N.

Fixpoint lstrip (s : str) : str :=
  match s with
  | c :: s' => if isspace c then lstrip s' else s
  | [] => []
  end.

Definition rstrip (s : str) : str := rev (lstrip (rev s)).

(** [s.strip()] with no argument. *)
Definition strip (s : str) : str := rstrip (lstrip s).

(** Iterating over a [str] yields its characters as one-character strings. *)
Definition chars (s : str) : list str := map (fun c => [c]) s.

(** [sep.join(parts)]. *)
Fixpoint join (sep : str) (parts : list str) : str :=
  match parts with
  | [] => []
  | p :: ps =>
      match ps with
      | [] => p
      | _ :: _ => p ++ sep ++ join sep ps
      end
  end.

(** Truth value of a [str]: non-empty. *)
Definition truthy (s : str) : bool :=
  match s with [] => false | _ :: _ => true end.

(** The data of the Unicode character database that the built-ins consult
    outside ASCII: the decimal digit value of a code point (if it is a
    decimal digit) and its full upper-case mapping, which is one code point
    or more. *)
Record UnicodeData := {
  to_decimal : char -> option N;
  to_upper_full : char -> char * list char
}.

Section Upper.
Variable ucd : UnicodeData.

Definition upper_char (c : char) : str :=
  if between 97 122 c then [(c - 32)%N]
  else if N.ltb c 128 then [c]
  else let (h, t) := to_upper_full ucd c in h :: t.

(** [s.upper()]. *)
Definition upper (s : str) : str := flat_map upper_char s.
End Upper.

(** [needle in hay]: [needle] occurs as a substring. *)
Definition occurs_in (needle hay : str) : Prop :=
  exists pre post, hay = pre ++ needle ++ post.

(** What the claims say of [strip] and of joining characters, stated without
    the functions. *)

(** [t] neither starts nor ends with whitespace. *)
Definition trimmed (t : str) : Prop :=
  (forall c r, t = c :: r -> isspace c = false) /\
  (forall c r, t = r ++ [c] -> isspace c = false).

(** [t] is [s] without its leading and trailing whitespace. *)
Definition stripped_of (s t : str) : Prop :=
  exists l r, s = l ++ t ++ r /\
    forallb isspace l = true /\ forallb isspace r = true /\ trimmed t.

(** [u] is the characters of [t] in order with one space between each two
    neighbours: [t]'s characters at the even positions, spaces at the odd
    ones, nothing more. *)
Definition spaced (t u : str) : Prop :=
  (List.length u = 2 * List.length t - 1 /\
   (forall i c, nth_error t i = Some c -> nth_error u (2 * i) = Some c) /\
   (forall i, 2 * i + 1 < List.length u -> nth_error u (2 * i + 1) = Some 32%N))%nat.

End Text.

(* ===================================================================== *)
(** * Float: [float] as IEEE 754 binary64 *)
(* ===================================================================== *)

Module Float.

Definition prec : Z := 53.
Definition emax : Z := 1024.

Definition float := spec_float.

(** The well-formed binary64 values: every Python [float] is one. *)
Definition is_float64 (x : float) : bool := valid_binary prec emax x.

Definition nan : float := S754_nan.
Definition inf (neg : bool) : float := S754_infinity neg.

(** [x <= y] and [x < y] on floats; both are false when a NaN is involved. *)
Definition le (x y : float) : bool := SFleb x y.
Definition lt (x y : float) : bool := SFltb x y.

(** Unary minus. *)
Definition neg (x : float) : float := SFopp x.

(** The exact value of a finite float, [None] for NaN and the infinities. *)
Definition real_value (x : float) : option Q :=
  match x with
  | S754_zero _ => Some 0%Q
  | S754_finite s m e =>
      Some (inject_Z (cond_Zopp s (Zpos m)) * Qpower 2 e)%Q
  | S754_infinity _ | S754_nan => None
  end.

(** The value of a finite float in units of [2^-1074], the smallest positive
    binary64: an integer for every well-formed float. *)
Definition ulps (x : float) : Z :=
  match x with
  | S754_finite s m e => cond_Zopp s (Zpos m * 2 ^ (e + 1074))
  | _ => 0
  end.

Definition is_finite (x : float) : bool :=
  match x with
  | S754_zero _ | S754_finite _ _ _ => true
  | S754_infinity _ | S754_nan => false
  end.

(** The value lies in the closed interval [[lo, hi]]. *)
Definition within (lo hi : Q) (x : float) : bool :=
  match real_value x with
  | Some q => (Qle_bool lo q && Qle_bool q hi)%bool
  | None => false
  end.

(** The value is negative: minus infinity or a finite value below zero. *)
Definition negative (x : float) : bool :=
  match x with
  | S754_infinity s => s
  | S754_nan => false
  | _ => match real_value x with Some q => negb (Qle_bool 0 q) | None => false end
  end.

(** The value is at least zero: plus infinity or a finite value [>= 0]. *)
Definition at_least_zero (x : float) : bool :=
  match x with
  | S754_infinity s => negb s
  | S754_nan => false
  | _ => match real_value x with Some q => Qle_bool 0 q | None => false end
  end.

(** The decimal number [m * 10^e10] (with [m >= 0]) rounded to the nearest
    binary64, ties to even, with the sign [sgn]: what the compiler does with
    a float literal and [float()] with the digits of a string. *)
Definition of_decimal (sgn : bool) (m : Z) (e10 : Z) : float :=
  match m with
  | Z0 => S754_zero sgn
  | Zpos p =>
      if 0 <=? e10 then binary_round prec emax sgn (p * Z.to_pos (10 ^ e10)) 0
      else
        let '(q, e, l) := SFdiv_core_binary prec emax (Zpos p) 0 (10 ^ (- e10)) 0 in
        binary_round_aux prec emax sgn q e l
  | Zneg _ => S754_nan
  end.

(** [float(n)] for an [int]: the nearest binary64, and [None] (Python
    raises [OverflowError]) when that is beyond the largest finite float. *)
Definition of_int (n : Z) : option float :=
  match binary_normalize prec emax n 0 false with
  | S754_infinity _ => None
  | x => Some x
  end.

Section Parse.
Import Text.
Variable ucd : UnicodeData.

Definition is_digit (c : char) : bool := between 48 57 c.

(** Before parsing, [float(str)] maps every non-ASCII whitespace to a
    space and every non-ASCII decimal digit to its ASCII digit; any other
    non-ASCII code point makes the conversion fail. *)
Fixpoint to_ascii (s : str) : option str :=
  match s with
  | [] => Some []
  | c :: s' =>
      let c' :=
        if N.ltb c 128 then Some c
        else if isspace c then Some 32%N
        else match to_decimal ucd c with
             | Some d => if N.ltb d 10 then Some (48 + d)%N else None
             | None => None
             end in
      match c', to_ascii s' with
      | Some a, Some r => Some (a :: r)
      | _, _ => None
      end
  end.

(** Underscores are allowed between two digits only; they are removed. *)
Fixpoint drop_underscores (prev : char) (s : str) : option str :=
  match s with
  | [] => if N.eqb prev 95 then None else Some []
  | c :: s' =>
      if N.eqb c 95 then
        if is_digit prev then drop_underscores c s' else None
      else
        if (N.eqb prev 95 && negb (is_digit c))%bool then None
        else option_map (cons c) (drop_underscores c s')
  end.

(** The C locale's whitespace, stripped around the number. *)
Definition c_isspace (c : char) : bool := (between 9 13 c || N.eqb c 32)%bool.

Fixpoint c_lstrip (s : str) : str :=
  match s with
  | c :: s' => if c_isspace c then c_lstrip s' else s
  | [] => []
  end.

Definition c_strip (s : str) : str := rev (c_lstrip (rev (c_lstrip s))).

Definition lower_ascii (c : char) : char :=
  if between 65 90 c then (c + 32)%N else c.

Definition take_sign (s : str) : bool * str :=
  match s with
  | 45%N :: r => (true, r)
  | 43%N :: r => (false, r)
  | _ => (false, s)
  end.

(** A maximal run of digits: its digits as a number continuing [acc], how
    many there are, and the rest. *)
Fixpoint take_digits (acc : Z) (n : Z) (s : str) : Z * Z * str :=
  match s with
  | c :: s' =>
      if is_digit c then take_digits (10 * acc + Z.of_N (c - 48)) (n + 1) s'
      else (acc, n, s)
  | [] => (acc, n, [])
  end.

(** [digits [. digits] | . digits], then an optional exponent, then the
    end of the text. *)
Definition parse_number (sgn : bool) (s : str) : option float :=
  let '(m1, n1, r1) := take_digits 0 0 s in
  let '(m2, n2, r2) :=
    match r1 with
    | 46%N :: r => take_digits m1 0 r
    | _ => (m1, 0, r1)
    end in
  if n1 + n2 =? 0 then None
  else
    match r2 with
    | [] => Some (of_decimal sgn m2 (- n2))
    | c :: r =>
        if (N.eqb c 101 || N.eqb c 69)%bool then
          let (eneg, r') := take_sign r in
          let '(ex, nx, r3) := take_digits 0 0 r' in
          if nx =? 0 then None
          else match r3 with
               | [] => Some (of_decimal sgn m2 ((if eneg then - ex else ex) - n2))
               | _ :: _ => None
               end
        else None
    end.

Definition parse_inf_or_nan (sgn : bool) (s : str) : option float :=
  let w := map lower_ascii s in
  if (str_eqb w (lit "inf") || str_eqb w (lit "infinity"))%bool then Some (inf sgn)
  else if str_eqb w (lit "nan") then Some nan
  else None.

(** [float(s)] for a [str]; [None] where Python raises [ValueError]. *)
Definition of_str (s : str) : option float :=
  match to_ascii s with
  | None => None
  | Some a =>
      match drop_underscores 0%N a with
      | None => None
      | Some b =>
          let (sgn, r) := take_sign (c_strip b) in
          match parse_number sgn r with
          | Some x => Some x
          | None => parse_inf_or_nan sgn r
          end
      end
  end.
End Parse.

End Float.

(* ===================================================================== *)
(** * The module [milestone1] *)
(* ===================================================================== *)

Module Milestone1.
Import Text Float.

(** ** Exceptions *)

(** The built-in exceptions the code can meet and the module's own three
    (lines 9-19): [LocationNotFoundError] and [InvalidDataError] derive from
    [WeatherAPIError]. *)
Inductive exn :=
  | SyntaxError
  | AttributeError
  | TypeError
  | ValueError
  | OverflowError
  | WeatherAPIError (msg : str)
  | LocationNotFoundError (msg : str)
  | InvalidDataError (msg : str).

Inductive exn_class :=
  | cls_Exception | cls_WeatherAPIError | cls_LocationNotFoundError
  | cls_InvalidDataError | cls_TypeError | cls_ValueError.

(** [isinstance(e, cls)], following the class statements. *)
Definition is_a (e : exn) (cls : exn_class) : bool :=
  match cls, e with
  | cls_Exception, _ => true
  | cls_WeatherAPIError,
      (WeatherAPIError _ | LocationNotFoundError _ | InvalidDataError _) => true
  | cls_LocationNotFoundError, LocationNotFoundError _ => true
  | cls_InvalidDataError, InvalidDataError _ => true
  | cls_TypeError, TypeError => true
  | cls_ValueError, ValueError => true
  | _, _ => false
  end.

Inductive result (A : Type) : Type :=
  | Ok (a : A)
  | Raise (e : exn).
Arguments Ok {A} a.
Arguments Raise {A} e.

(** ** Values *)

(** The values a caller can pass where the annotations say [Any], [str],
    [float] or [Optional[str]]: nothing is checked at the call. A value is
    [None], or an object of exactly the type [bool], [int], [float] or
    [str], or, as [VOther], an object of a type that [float()] has no
    conversion for: one that is not [bytes] or [bytearray] and defines
    neither [__float__] nor [__index__], such as a list, a dict or an
    instance of a plain class. Objects that bring a conversion of their own
    are not among these values: what [float()] does with them is the
    object's code, not this module's. *)
Inductive value :=
  | VNone
  | VBool (b : bool)
  | VInt (n : Z)
  | VFloat (x : float)
  | VStr (s : str)
  | VOther (type_name : str).

(** [isinstance(v, str)], with the text when it holds. *)
Definition as_str (v : value) : option str :=
  match v with VStr s => Some s | _ => None end.

(** A [dict] display keeps the order of its keys. *)
Definition dict := list (str * value).

Section WithUnicode.
Variable ucd : UnicodeData.

(** The built-in [float(v)] on these values: an [int] too large for a
    float raises [OverflowError], a text that is not a number raises
    [ValueError], [None] and an object without a conversion raise
    [TypeError]. *)
Definition builtin_float (v : value) : result float :=
  match v with
  | VFloat x => Ok x
  | VBool b => Ok (of_decimal false (if b then 1 else 0) 0)
  | VInt n =>
      match of_int n with
      | Some x => Ok x
      | None => Raise OverflowError
      end
  | VStr s =>
      match of_str ucd s with
      | Some x => Ok x
      | None => Raise ValueError
      end
  | VNone | VOther _ => Raise TypeError
  end.

(** ** Module-level functions *)

(** Lines 22-25. *)
Definition sanitize_text (s : str) : str :=
  let s := strip s in
  let s := join (lit " ") (chars (strip s)) in
  s.

(** Lines 28-33. *)
Definition to_float (name : str) (v : value) : result float :=
  match builtin_float v with
  | Ok x => Ok x
  | Raise e =>
      if (is_a e cls_TypeError || is_a e cls_ValueError)%bool
      then Raise (InvalidDataError (name ++ lit " must be a number."))
      else Raise e
  end.

(** ** The class [WeatherObservation] *)

(** The private attributes of an instance (lines 66-73); an attribute is
    [None] here until its first assignment. [__notes] holds Python's
    [None] or a text once assigned. *)
Record WeatherObservation := {
  __city : option str;
  __country : option str;
  __latitude : option float;
  __longitude : option float;
  __temperature_c : option float;
  __windspeed_kmh : option float;
  __observation_time : option str;
  __notes : option (option str)
}.

(** The instance as [__init__] receives it. *)
Definition fresh : WeatherObservation :=
  {| __city := None; __country := None; __latitude := None;
     __longitude := None; __temperature_c := None; __windspeed_kmh := None;
     __observation_time := None; __notes := None |}.

(** A method body: it runs on [self], ends with a value or an exception,
    and leaves [self] as its assignments made it in both cases. *)
Definition M (A : Type) : Type :=
  WeatherObservation -> result A * WeatherObservation.

Definition ret {A} (a : A) : M A := fun self => (Ok a, self).

Definition bind {A B} (m : M A) (k : A -> M B) : M B :=
  fun self =>
    match m self with
    | (Ok a, self') => k a self'
    | (Raise e, self') => (Raise e, self')
    end.

Definition raise {A} (e : exn) : M A := fun self => (Raise e, self).

(** A call of a module-level function from a method. *)
Definition call {A} (r : result A) : M A := fun self => (r, self).

Definition assign (upd : WeatherObservation -> WeatherObservation) : M unit :=
  fun self => (Ok tt, upd self).

Definition read {A} (attr : WeatherObservation -> option A) (wrap : A -> value)
  : M value :=
  fun self =>
    match attr self with
    | Some a => (Ok (wrap a), self)
    | None => (Raise AttributeError, self)
    end.

Notation "x <- m ;; k" := (bind m (fun x => k))
  (at level 61, m at next level, right associativity).
Notation "m ;; k" := (bind m (fun _ => k))
  (at level 61, right associativity).

Definition set___city v (o : WeatherObservation) :=
  {| __city := Some v; __country := __country o; __latitude := __latitude o;
     __longitude := __longitude o; __temperature_c := __temperature_c o;
     __windspeed_kmh := __windspeed_kmh o;
     __observation_time := __observation_time o; __notes := __notes o |}.
Definition set___country v (o : WeatherObservation) :=
  {| __city := __city o; __country := Some v; __latitude := __latitude o;
     __longitude := __longitude o; __temperature_c := __temperature_c o;
     __windspeed_kmh := __windspeed_kmh o;
     __observation_time := __observation_time o; __notes := __notes o |}.
Definition set___latitude v (o : WeatherObservation) :=
  {| __city := __city o; __country := __country o; __latitude := Some v;
     __longitude := __longitude o; __temperature_c := __temperature_c o;
     __windspeed_kmh := __windspeed_kmh o;
     __observation_time := __observation_time o; __notes := __notes o |}.
Definition set___longitude v (o : WeatherObservation) :=
  {| __city := __city o; __country := __country o; __latitude := __latitude o;
     __longitude := Some v; __temperature_c := __temperature_c o;
     __windspeed_kmh := __windspeed_kmh o;
     __observation_time := __observation_time o; __notes := __notes o |}.
Definition set___temperature_c v (o : WeatherObservation) :=
  {| __city := __city o; __country := __country o; __latitude := __latitude o;
     __longitude := __longitude o; __temperature_c := Some v;
     __windspeed_kmh := __windspeed_kmh o;
     __observation_time := __observation_time o; __notes := __notes o |}.
Definition set___windspeed_kmh v (o : WeatherObservation) :=
  {| __city := __city o; __country := __country o; __latitude := __latitude o;
     __longitude := __longitude o; __temperature_c := __temperature_c o;
     __windspeed_kmh := Some v;
     __observation_time := __observation_time o; __notes := __notes o |}.
Definition set___observation_time v (o : WeatherObservation) :=
  {| __city := __city o; __country := __country o; __latitude := __latitude o;
     __longitude := __longitude o; __temperature_c := __temperature_c o;
     __windspeed_kmh := __windspeed_kmh o;
     __observation_time := Some v; __notes := __notes o |}.
Definition set___notes v (o : WeatherObservation) :=
  {| __city := __city o; __country := __country o; __latitude := __latitude o;
     __longitude := __longitude o; __temperature_c := __temperature_c o;
     __windspeed_kmh := __windspeed_kmh o;
     __observation_time := __observation_time o; __notes := Some v |}.

(** The float literals of the range checks. *)
Definition f90 : float := Eval vm_compute in of_decimal false 900 (-1).
Definition f180 : float := Eval vm_compute in of_decimal false 1800 (-1).
Definition f100 : float := Eval vm_compute in of_decimal false 1000 (-1).
Definition f70 : float := Eval vm_compute in of_decimal false 700 (-1).
(** The [int] literal [0] of line 142, as the comparison converts it. *)
Definition f0 : float := S754_zero false.

(** *** Properties: getters *)

Definition city : M value := read __city VStr.                 (* 76-78 *)
Definition country : M value := read __country VStr.           (* 87-89 *)
Definition latitude : M value := read __latitude VFloat.       (* 98-100 *)
Definition longitude : M value := read __longitude VFloat.     (* 110-112 *)
Definition temperature_c : M value := read __temperature_c VFloat.
Definition windspeed_kmh : M value := read __windspeed_kmh VFloat.
Definition observation_time : M value := read __observation_time VStr.
Definition notes : M value :=                                   (* 157-159 *)
  read __notes (fun n => match n with Some s => VStr s | None => VNone end).

(** *** Properties: setters *)

(** The test [not isinstance(value, str) or not value.strip()]. *)
Definition not_nonempty_str (v : value) : bool :=
  match as_str v with
  | None => true
  | Some s => negb (truthy (strip s))
  end.

(** [sanitize_text(value)] once the test above has let [value] through. *)
Definition text_of (v : value) : str :=
  match as_str v with Some s => s | None => [] end.

(** Lines 80-85. *)
Definition city_setter (v : value) : M unit :=
  if not_nonempty_str v
  then raise (InvalidDataError (lit "City must be a non-empty string"))
  else assign (set___city (sanitize_text (text_of v))).

(** Lines 91-96. *)
Definition country_setter (v : value) : M unit :=
  if not_nonempty_str v
  then raise (InvalidDataError (lit "Country must be a non-empty string"))
  else assign (set___country (upper ucd (sanitize_text (text_of v)))).

(** Lines 102-108. *)
Definition latitude_setter (value : value) : M unit :=
  v <- call (to_float (lit "latitude") value) ;;
  if negb (le (neg f90) v && le v f90)
  then raise (InvalidDataError (lit "Latitude must be between -90 and 90"))
  else assign (set___latitude v).

(** Lines 114-120. *)
Definition longitude_setter (value : value) : M unit :=
  v <- call (to_float (lit "Longitude") value) ;;
  if negb (le (neg f180) v && le v f180)
  then raise (InvalidDataError (lit "Longitude must be between -180 and 180"))
  else assign (set___longitude v).

(** Lines 126-132. *)
Definition temperature_c_setter (value : value) : M unit :=
  v <- call (to_float (lit "Temperature_c") value) ;;
  if negb (le (neg f100) v && le v f70)
  then raise (InvalidDataError (lit "Temperature seems unrealistic"))
  else assign (set___temperature_c v).

(** Lines 138-144. *)
Definition windspeed_kmh_setter (value : value) : M unit :=
  v <- call (to_float (lit "windspeed_kmh") value) ;;
  if lt v f0
  then raise (InvalidDataError (lit "Windspeed cannot be negative"))
  else assign (set___windspeed_kmh v).

(** Lines 150-155. *)
Definition observation_time_setter (v : value) : M unit :=
  if not_nonempty_str v
  then raise (InvalidDataError (lit "Observation time must be a non-empty string"))
  else assign (set___observation_time (sanitize_text (text_of v))).

(** Lines 163-169: the body of the [notes] setter, on the two parameters
    [self] and [value] that its header names. The header itself (line
    162) separates them with [->] instead of a comma; see [Syntax]. *)
Definition notes_setter (v : value) : M unit :=
  match v with
  | VNone => assign (set___notes None)
  | _ =>
      match as_str v with
      | Some s => assign (set___notes (Some (sanitize_text s)))
      | None => raise (InvalidDataError (lit "Notes must be a string or None"))
      end
  end.

(** *** [__init__] (lines 45-63) *)

Definition __init__
    (city country latitude longitude temperature_c windspeed_kmh
     observation_time notes : value) : M unit :=
  city_setter city ;;
  country_setter country ;;
  latitude_setter latitude ;;
  longitude_setter longitude ;;
  temperature_c_setter temperature_c ;;
  windspeed_kmh_setter windspeed_kmh ;;
  observation_time_setter observation_time ;;
  notes_setter notes.

(** The call [WeatherObservation(...)]: the caller gets the instance only
    when [__init__] returns. *)
Definition new
    (city country latitude longitude temperature_c windspeed_kmh
     observation_time notes : value) : result WeatherObservation :=
  match __init__ city country latitude longitude temperature_c
                 windspeed_kmh observation_time notes fresh with
  | (Ok _, self) => Ok self
  | (Raise e, _) => Raise e
  end.

(** The default of the parameter [notes]. *)
Definition notes_default : value := VNone.

(** *** [to_dict] (lines 172-183) *)

Definition to_dict : M dict :=
  v1 <- city ;;
  v2 <- country ;;
  v3 <- latitude ;;
  v4 <- longitude ;;
  v5 <- temperature_c ;;
  v6 <- windspeed_kmh ;;
  v7 <- observation_time ;;
  v8 <- notes ;;
  ret [ (lit "city", v1); (lit "country", v2); (lit "latitude", v3);
        (lit "longitude", v4); (lit "temperature_c", v5);
        (lit "windspeed_kmh", v6); (lit "observation_time", v7);
        (lit "notes", v8) ].

(** ** Mutation through the properties *)

Inductive field :=
  | Fcity | Fcountry | Flatitude | Flongitude | Ftemperature_c
  | Fwindspeed_kmh | Fobservation_time | Fnotes.

(** [self.<field> = v]. *)
Definition setattr (f : field) (v : value) : M unit :=
  match f with
  | Fcity => city_setter v
  | Fcountry => country_setter v
  | Flatitude => latitude_setter v
  | Flongitude => longitude_setter v
  | Ftemperature_c => temperature_c_setter v
  | Fwindspeed_kmh => windspeed_kmh_setter v
  | Fobservation_time => observation_time_setter v
  | Fnotes => notes_setter v
  end.

(** The values a caller can pass are Python values: a [float] among them
    is a binary64. *)
Definition well_formed (v : value) : Prop :=
  match v with
  | VFloat x => is_float64 x = true
  | _ => True
  end.

(** The values of the built-in types: [None], a [bool], an [int], a
    [float] or a [str]. *)
Definition builtin_typed (v : value) : bool :=
  match v with
  | VOther _ => false
  | _ => true
  end.

(** The instances a caller can hold: returned by the constructor, then
    changed by any number of assignments, whether they raise or not. *)
Inductive live : WeatherObservation -> Prop :=
  | live_new c co la lo t w ot n self :
      Forall well_formed [c; co; la; lo; t; w; ot; n] ->
      new c co la lo t w ot n = Ok self -> live self
  | live_setattr self f v r self' :
      live self -> well_formed v -> setattr f v self = (r, self') ->
      live self'.

(** ** The constraints on the fields *)

Definition nonempty_text (a : option str) : Prop :=
  exists s, a = Some s /\ truthy s = true.

Definition float_within (lo hi : Q) (a : option float) : Prop :=
  exists x, a = Some x /\ within lo hi x = true.

(** The constraint of one field; [wind_ok] is the one on the wind speed. *)
Definition field_ok (wind_ok : float -> bool) (f : field)
    (self : WeatherObservation) : Prop :=
  match f with
  | Fcity => nonempty_text (__city self)
  | Fcountry => nonempty_text (__country self)
  | Flatitude => float_within (-90 # 1) (90 # 1) (__latitude self)
  | Flongitude => float_within (-180 # 1) (180 # 1) (__longitude self)
  | Ftemperature_c => float_within (-100 # 1) (70 # 1) (__temperature_c self)
  | Fwindspeed_kmh => exists x, __windspeed_kmh self = Some x /\ wind_ok x = true
  | Fobservation_time => nonempty_text (__observation_time self)
  | Fnotes => exists n : option str, __notes self = Some n
  end.

Definition constraints (wind_ok : float -> bool) (self : WeatherObservation)
  : Prop :=
  forall f, field_ok wind_ok f self.

(** With the wind speed at least zero. *)
Definition constraints_at_least_zero := constraints at_least_zero.

(** With the wind speed not negative: at least zero, or a NaN. *)
Definition constraints_not_negative := constraints (fun w => negb (negative w)).

(** ** The order of validation in [__init__] *)

(** Whether [self.<field> = v] returns or raises; it does not depend on the
    instance. *)
Definition outcome (f : field) (v : value) : result unit :=
  fst (setattr f v fresh).

(** The exception of the first assignment that raises, in the order given. *)
Fixpoint first_error (l : list (field * value)) : option exn :=
  match l with
  | [] => None
  | (f, v) :: r =>
      match outcome f v with
      | Raise e => Some e
      | Ok _ => first_error r
      end
  end.

Definition in_order (c co la lo t w ot n : value) : list (field * value) :=
  [ (Fcity, c); (Fcountry, co); (Flatitude, la); (Flongitude, lo);
    (Ftemperature_c, t); (Fwindspeed_kmh, w); (Fobservation_time, ot);
    (Fnotes, n) ].

(** Assignments one after the other, stopping at the first that raises. *)
Fixpoint assign_all (l : list (field * value)) : M unit :=
  match l with
  | [] => ret tt
  | (f, v) :: r => setattr f v ;; assign_all r
  end.

End WithUnicode.

(** ** The scenario of the specification *)

Definition paris_lat : float := of_decimal false 488566 (-4).    (* 48.8566 *)
Definition paris_lon : float := of_decimal false 23522 (-4).     (* 2.3522 *)
Definition paris_temp : float := of_decimal false 180 (-1).      (* 18.0 *)
Definition paris_wind : float := of_decimal false 125 (-1).      (* 12.5 *)

Definition paris_city : value := VStr (lit "Paris").
Definition paris_country : value := VStr (lit "fr").
Definition paris_latitude : value := VFloat paris_lat.
Definition paris_longitude : value := VFloat paris_lon.
Definition paris_temperature_c : value := VFloat paris_temp.
Definition paris_windspeed_kmh : value := VFloat paris_wind.
Definition paris_observation_time : value := VStr (lit "2024-05-01T12:00:00Z").

(** The instance the definitions build from these arguments. *)
Definition paris_instance : WeatherObservation :=
  {| __city := Some (lit "P a r i s");
     __country := Some (lit "F R");
     __latitude := Some paris_lat;
     __longitude := Some paris_lon;
     __temperature_c := Some paris_temp;
     __windspeed_kmh := Some paris_wind;
     __observation_time := Some (lit "2 0 2 4 - 0 5 - 0 1 T 1 2 : 0 0 : 0 0 Z");
     __notes := Some None |}.

(** The mapping the scenario expects from [to_dict]. *)
Definition paris_expected : dict :=
  [ (lit "city", VStr (lit "Paris"));
    (lit "country", VStr (lit "FR"));
    (lit "latitude", paris_latitude);
    (lit "longitude", paris_longitude);
    (lit "temperature_c", paris_temperature_c);
    (lit "windspeed_kmh", paris_windspeed_kmh);
    (lit "observation_time", VStr (lit "2024-05-01T12:00:00Z"));
    (lit "notes", VNone) ].

(** The mapping the definitions give. *)
Definition paris_actual : dict :=
  [ (lit "city", VStr (lit "P a r i s"));
    (lit "country", VStr (lit "F R"));
    (lit "latitude", paris_latitude);
    (lit "longitude", paris_longitude);
    (lit "temperature_c", paris_temperature_c);
    (lit "windspeed_kmh", paris_windspeed_kmh);
    (lit "observation_time",
       VStr (lit "2 0 2 4 - 0 5 - 0 1 T 1 2 : 0 0 : 0 0 Z"));
    (lit "notes", VNone) ].

(** ** Reading and writing attributes, field by field *)

(** [self.<field>]: the getter of the property. *)
Definition getattr (f : field) : M value :=
  match f with
  | Fcity => city
  | Fcountry => country
  | Flatitude => latitude
  | Flongitude => longitude
  | Ftemperature_c => temperature_c
  | Fwindspeed_kmh => windspeed_kmh
  | Fobservation_time => observation_time
  | Fnotes => notes
  end.

(** The key of a field in the mapping of [to_dict] (lines 175-182). *)
Definition key (f : field) : str :=
  match f with
  | Fcity => lit "city"
  | Fcountry => lit "country"
  | Flatitude => lit "latitude"
  | Flongitude => lit "longitude"
  | Ftemperature_c => lit "temperature_c"
  | Fwindspeed_kmh => lit "windspeed_kmh"
  | Fobservation_time => lit "observation_time"
  | Fnotes => lit "notes"
  end.

(** The fields in the order of [__init__] and of [to_dict]. *)
Definition all_fields : list field :=
  [ Fcity; Fcountry; Flatitude; Flongitude; Ftemperature_c; Fwindspeed_kmh;
    Fobservation_time; Fnotes ].

(** The assignments to the private attribute of a field: what the last
    line of its setter can do to the instance. *)
Inductive writes : field -> (WeatherObservation -> WeatherObservation) -> Prop :=
  | writes_city a : writes Fcity (set___city a)
  | writes_country a : writes Fcountry (set___country a)
  | writes_latitude x : writes Flatitude (set___latitude x)
  | writes_longitude x : writes Flongitude (set___longitude x)
  | writes_temperature_c x : writes Ftemperature_c (set___temperature_c x)
  | writes_windspeed_kmh x : writes Fwindspeed_kmh (set___windspeed_kmh x)
  | writes_observation_time a : writes Fobservation_time (set___observation_time a)
  | writes_notes n : writes Fnotes (set___notes n).

(** The field names [to_float] is called with (lines 105, 117, 129, 141). *)
Definition coercion_name (f : field) : option str :=
  match f with
  | Flatitude => Some (lit "latitude")
  | Flongitude => Some (lit "Longitude")
  | Ftemperature_c => Some (lit "Temperature_c")
  | Fwindspeed_kmh => Some (lit "windspeed_kmh")
  | _ => None
  end.

(** [u] is what the getter of [f] returns once [self.<f> = v] has
    returned: the sanitized text (upper-cased for the country), the coerced
    number, [None] or the sanitized text for the notes. *)
Definition stored_as (ucd : UnicodeData) (f : field) (v u : value) : Prop :=
  match f with
  | Fcity | Fobservation_time =>
      exists s, v = VStr s /\ u = VStr (sanitize_text s)
  | Fcountry =>
      exists s, v = VStr s /\ u = VStr (upper ucd (sanitize_text s))
  | Fnotes =>
      (v = VNone /\ u = VNone) \/
      (exists s, v = VStr s /\ u = VStr (sanitize_text s))
  | _ =>
      exists name x,
        coercion_name f = Some name /\ to_float ucd name v = Ok x /\ u = VFloat x
  end.

(** A text made of whitespace only (the empty text included). *)
Definition blank (s : str) : bool := forallb isspace s.

(** A text of ASCII characters only, and the upper case of an ASCII
    character. *)
Definition ascii_text (s : str) : bool := forallb (fun c => N.ltb c 128) s.

Definition ascii_upper (c : char) : char :=
  if between 97 122 c then (c - 32)%N else c.

Definition ascii_lower_case (c : char) : bool := between 97 122 c.

(** Tables that know no code point outside ASCII, to run the definitions
    on ASCII inputs. *)
Definition ascii_only : UnicodeData :=
  {| to_decimal := fun _ => None; to_upper_full := fun c => (c, []) |}.

End Milestone1.

(* ===================================================================== *)
(** * Syntax: the [def] headers and loading the module *)
(* ===================================================================== *)

Module Syntax.
Import Milestone1.
Local Open Scope string_scope.

Inductive token :=
  | NAME (id : string)
  | OP (op : string).

Definition token_eqb (a b : token) : bool :=
  match a, b with
  | NAME x, NAME y => String.eqb x y
  | OP x, OP y => String.eqb x y
  | _, _ => false
  end.

Definition is_name_char (c : ascii) : bool :=
  let n := N_of_ascii c in
  (Text.between 97 122 n || Text.between 65 90 n || Text.between 48 57 n
   || N.eqb n 95)%bool.

Definition is_blank (c : ascii) : bool :=
  let n := N_of_ascii c in (N.eqb n 32 || N.eqb n 9 || N.eqb n 10)%bool.

Definition flush (word : string) (acc : list token) : list token :=
  match word with
  | EmptyString => acc
  | _ => NAME word :: acc
  end.

Definition snoc (w : string) (c : ascii) : string := w ++ String c EmptyString.

(** The tokens of a logical line: names, the operator [->], and every other
    non-blank character as an operator of its own. [word] is the name being
    read and [acc] the tokens read so far, last first. *)
Fixpoint tokens_from (s : string) (word : string) (acc : list token)
  : list token :=
  match s with
  | EmptyString => rev (flush word acc)
  | String c r =>
      if is_name_char c then tokens_from r (snoc word c) acc
      else if is_blank c then tokens_from r EmptyString (flush word acc)
      else
        match r with
        | String d r' =>
            if (Ascii.eqb c "-" && Ascii.eqb d ">")%bool
            then tokens_from r' EmptyString (OP "->" :: flush word acc)
            else tokens_from r EmptyString
                   (OP (String c EmptyString) :: flush word acc)
        | EmptyString =>
            rev (OP (String c EmptyString) :: flush word acc)
        end
  end.

Definition tokenize (line : string) : list token :=
  tokens_from line EmptyString [].

Definition keywords : list string :=
  [ "False"; "None"; "True"; "and"; "as"; "assert"; "async"; "await";
    "break"; "class"; "continue"; "def"; "del"; "elif"; "else"; "except";
    "finally"; "for"; "from"; "global"; "if"; "import"; "in"; "is";
    "lambda"; "nonlocal"; "not"; "or"; "pass"; "raise"; "return"; "try";
    "while"; "with"; "yield" ].

Definition is_keyword (id : string) : bool := existsb (String.eqb id) keywords.

(** A type annotation or default value as this file writes them: a name or
    [None], optionally subscripted ([Optional[str]], [Dict[str, Any]]).
    The result is what follows the expression. *)
Fixpoint expression (fuel : nat) (ts : list token) : option (list token) :=
  match fuel with
  | O => None
  | S fuel' =>
      match ts with
      | NAME id :: r =>
          if (is_keyword id && negb (String.eqb id "None"))%bool then None
          else
            match r with
            | OP "[" :: r' => subscripts fuel' r'
            | _ => Some r
            end
      | _ => None
      end
  end
with subscripts (fuel : nat) (ts : list token) : option (list token) :=
  match fuel with
  | O => None
  | S fuel' =>
      match expression fuel' ts with
      | Some (OP "]" :: r) => Some r
      | Some (OP "," :: r) => subscripts fuel' r
      | _ => None
      end
  end.

(** One parameter: [NAME [':' expression] ['=' expression]]. *)
Definition parameter (fuel : nat) (ts : list token) : option (list token) :=
  match ts with
  | NAME id :: r =>
      if is_keyword id then None
      else
        let after_annotation :=
          match r with
          | OP ":" :: r' => expression fuel r'
          | _ => Some r
          end in
        match after_annotation with
        | Some (OP "=" :: r') => expression fuel r'
        | other => other
        end
  | _ => None
  end.

(** The parameter list after ['(']: parameters separated by commas, an
    optional trailing comma, then [')']. After a parameter nothing but a
    comma or the closing parenthesis can follow. *)
Fixpoint parameters (fuel : nat) (ts : list token) : option (list token) :=
  match fuel with
  | O => None
  | S fuel' =>
      match ts with
      | OP ")" :: r => Some r
      | _ =>
          match parameter fuel' ts with
          | Some (OP ")" :: r) => Some r
          | Some (OP "," :: r) => parameters fuel' r
          | _ => None
          end
      end
  end.

(** ['def' NAME '(' parameters ')' ['->' expression] ':'], the whole line. *)
Definition def_header_ok (ts : list token) : bool :=
  let fuel := S (List.length ts) in
  match ts with
  | NAME "def" :: NAME f :: OP "(" :: r =>
      if is_keyword f then false
      else
        match parameters fuel r with
        | Some (OP ":" :: []) => true
        | Some (OP "->" :: r') =>
            match expression fuel r' with
            | Some (OP ":" :: []) => true
            | _ => false
            end
        | _ => false
        end
  | _ => false
  end.

(** Every [def] header of the file, with the line it starts on; the
    comments inside the header of [__init__] (lines 46-54) are left out, as
    the tokenizer drops them. *)
Definition def_headers : list (nat * string) :=
  [ (22, "def sanitize_text(s: str) -> str:");
    (28, "def to_float(name: str, value: Any) -> float:");
    (39, "def to_dict(self) -> Dict[str, Any]:");
    (45, "def __init__(
        self,
        city: str,
        country: str,
        latitude: float,
        longitude: float,
        temperature_c: float,
        windspeed_kmh: float,
        observation_time: str,
        notes: Optional[str] = None,
    ) -> None:");
    (77, "def city(self) -> str:");
    (81, "def city(self, value: str) -> None:");
    (88, "def country(self) -> str:");
    (92, "def country(self, value: str) -> None:");
    (99, "def latitude(self) -> float:");
    (103, "def latitude(self, value: float) -> None:");
    (111, "def longitude(self) -> float:");
    (115, "def longitude(self, value: float) -> None:");
    (123, "def temperature_c(self) -> float:");
    (127, "def temperature_c(self, value: float) -> None:");
    (135, "def windspeed_kmh(self) -> float:");
    (139, "def windspeed_kmh(self, value: float) -> None:");
    (147, "def observation_time(self) -> str:");
    (151, "def observation_time(self, value: str) -> None:");
    (158, "def notes(self) -> Optional[str]:");
    (162, "def notes(self -> value: Optional[str]) -> None:");
    (172, "def to_dict(self) -> Dict[str, Any]:");
    (186, "def __repr__(self) -> str:") ]%nat.

(** The header of the [notes] setter. *)
Definition line_162 : string :=
  "def notes(self -> value: Optional[str]) -> None:".

(** Python compiles the whole file before it runs its first statement: one
    header that does not parse and nothing of the module is defined. *)
Definition compiles : bool :=
  forallb (fun h => def_header_ok (tokenize (snd h))) def_headers.

Definition import_module : result unit :=
  if compiles then Ok tt else Raise SyntaxError.

(** What a program gets from a use of the module: [body] is what the use
    would evaluate to with the module's definitions at hand. *)
Definition after_import {A} (body : result A) : result A :=
  match import_module with
  | Ok _ => body
  | Raise e => Raise e
  end.

End Syntax.


(* ===================================================================== *)
(** * Properties of the text built-ins *)
(* ===================================================================== *)

Module TextFacts.
Import Text.

Lemma lstrip_split (s : str) :
  exists l, s = l ++ lstrip s /\ forallb isspace l = true.
Proof.
  induction s as [|c s IH]; simpl.
  - exists []. split; reflexivity.
  - destruct (isspace c) eqn:Hc.
    + destruct IH as [l [Hs Hl]]. exists (c :: l). simpl.
      rewrite Hc, Hl. split; [now f_equal | reflexivity].
    + exists []. split; reflexivity.
Qed.

Lemma lstrip_head (s : str) c r : lstrip s = c :: r -> isspace c = false.
Proof.
  induction s as [|a s IH]; simpl; [discriminate|].
  destruct (isspace a) eqn:Ha; [exact IH|].
  intros H. injection H as -> _. exact Ha.
Qed.

Lemma lstrip_fixed (s : str) :
  (forall c r, s = c :: r -> isspace c = false) -> lstrip s = s.
Proof.
  destruct s as [|c r]; [reflexivity|]. intros H. simpl.
  now rewrite (H c r eq_refl).
Qed.

Lemma lstrip_suffix_last (s : str) c r :
  lstrip s = r ++ [c] -> exists r', s = r' ++ [c].
Proof.
  intros H. destruct (lstrip_split s) as [l [Hs _]].
  exists (l ++ r). rewrite Hs at 1. rewrite H. now rewrite app_assoc.
Qed.

Lemma rstrip_split (s : str) :
  exists r, s = rstrip s ++ r /\ forallb isspace r = true.
Proof.
  unfold rstrip. destruct (lstrip_split (rev s)) as [l [Hs Hl]].
  exists (rev l). split.
  - rewrite <- rev_app_distr, <- Hs. now rewrite rev_involutive.
  - rewrite forallb_forall in *. intros x Hx. apply Hl. now apply in_rev.
Qed.

Lemma rstrip_last (s : str) c r : rstrip s = r ++ [c] -> isspace c = false.
Proof.
  unfold rstrip. intros H.
  apply (f_equal (@rev _)) in H. rewrite rev_involutive, rev_app_distr in H.
  simpl in H. exact (lstrip_head _ _ _ H).
Qed.

Lemma rstrip_fixed (s : str) :
  (forall c r, s = r ++ [c] -> isspace c = false) -> rstrip s = s.
Proof.
  intros H. unfold rstrip. rewrite lstrip_fixed; [apply rev_involutive|].
  intros c r Hr. apply (H c (rev r)).
  rewrite <- (rev_involutive s), Hr. reflexivity.
Qed.

Lemma rstrip_head (s : str) c r :
  (forall c' r', s = c' :: r' -> isspace c' = false) ->
  rstrip s = c :: r -> isspace c = false.
Proof.
  intros Hs H. destruct (rstrip_split s) as [t [Hst _]].
  rewrite H in Hst. exact (Hs c (r ++ t) Hst).
Qed.

Lemma strip_trimmed (s : str) : trimmed (strip s).
Proof.
  unfold strip. split.
  - intros c r H. apply (rstrip_head (lstrip s) c r); [|exact H].
    intros c' r'. apply lstrip_head.
  - intros c r. apply rstrip_last.
Qed.

Lemma strip_stripped_of (s : str) : stripped_of s (strip s).
Proof.
  destruct (lstrip_split s) as [l [Hl Hlw]].
  destruct (rstrip_split (lstrip s)) as [r [Hr Hrw]].
  exists l, r. repeat split; try assumption.
  - unfold strip. now rewrite <- Hr.
  - apply strip_trimmed.
  - apply strip_trimmed.
Qed.

Lemma strip_fixed (t : str) : trimmed t -> strip t = t.
Proof.
  intros [H1 H2]. unfold strip. rewrite (lstrip_fixed t H1).
  now apply rstrip_fixed.
Qed.

(** Stripping twice is stripping once (line 24 strips what line 23 already
    stripped). *)
Lemma strip_idempotent (s : str) : strip (strip s) = strip s.
Proof. apply strip_fixed, strip_trimmed. Qed.

Lemma strip_nonempty_has_char (s : str) :
  truthy (strip s) = true -> exists c r, strip s = c :: r.
Proof. destruct (strip s) as [|c r]; [discriminate|]. now exists c, r. Qed.

Lemma join_chars_cons (c d : char) (t : str) :
  join (lit " ") (chars (c :: d :: t))
  = c :: 32%N :: join (lit " ") (chars (d :: t)).
Proof. reflexivity. Qed.

Lemma join_chars_length (t : str) :
  (List.length (join (lit " ") (chars t)) = 2 * List.length t - 1)%nat.
Proof.
  induction t as [|c [|d t] IH]; try reflexivity.
  rewrite join_chars_cons. cbn [List.length] in *. lia.
Qed.

Lemma join_chars_spaced (t : str) : spaced t (join (lit " ") (chars t)).
Proof.
  split; [apply join_chars_length|].
  induction t as [|c [|d t] IH].
  - split; [intros [|i] c'; discriminate | simpl; lia].
  - split.
    + intros [|[|i]] c' H; simpl in *; try discriminate; assumption.
    + simpl; lia.
  - rewrite join_chars_cons. destruct IH as [IH1 IH2]. split.
    + intros [|i] c' H.
      * exact H.
      * replace (2 * S i)%nat with (S (S (2 * i))) by lia.
        cbn [nth_error] in *. now apply IH1.
    + intros [|i] H.
      * reflexivity.
      * replace (2 * S i + 1)%nat with (S (S (2 * i + 1))) by lia.
        cbn [nth_error]. apply IH2. cbn [List.length] in H. lia.
Qed.

Lemma join_chars_nonempty (t : str) :
  truthy t = true -> truthy (join (lit " ") (chars t)) = true.
Proof. destruct t as [|c [|d t]]; [discriminate| |]; reflexivity. Qed.

Lemma upper_nonempty ucd (t : str) :
  truthy t = true -> truthy (upper ucd t) = true.
Proof.
  destruct t as [|c t]; [discriminate|]. intros _. simpl.
  unfold upper_char. destruct (between 97 122 c); [reflexivity|].
  destruct (N.ltb c 128); [reflexivity|].
  destruct (to_upper_full ucd c). reflexivity.
Qed.

End TextFacts.

(* ===================================================================== *)
(** * Properties of binary64 comparison and rounding *)
(* ===================================================================== *)

Module FloatFacts.
Import Float.

Lemma double_bounds (b : bool) (lo m hi : Z) :
  lo <= m < hi -> 2 * lo <= 2 * m + (if b then 1 else 0) < 2 * hi.
Proof. destruct b; lia. Qed.

Lemma digits2_pos_bounds (m : positive) :
  2 ^ (Zpos (digits2_pos m) - 1) <= Zpos m < 2 ^ Zpos (digits2_pos m).
Proof.
  induction m as [m IH|m IH|]; cbn [digits2_pos].
  - rewrite Pos2Z.inj_succ. change (Zpos m~1) with (2 * Zpos m + 1).
    replace (Z.succ (Zpos (digits2_pos m)) - 1)
      with (Z.succ (Zpos (digits2_pos m) - 1)) by lia.
    rewrite !Z.pow_succ_r by lia.
    exact (double_bounds true _ _ _ IH).
  - rewrite Pos2Z.inj_succ. change (Zpos m~0) with (2 * Zpos m).
    replace (Z.succ (Zpos (digits2_pos m)) - 1)
      with (Z.succ (Zpos (digits2_pos m) - 1)) by lia.
    rewrite !Z.pow_succ_r by lia.
    rewrite <- (Z.add_0_r (2 * Zpos m)).
    exact (double_bounds false _ _ _ IH).
  - simpl. lia.
Qed.

(** What [bounded] says of a mantissa and its exponent. *)
Lemma bounded_inv (m : positive) (e : Z) :
  bounded prec emax m e = true ->
  -1074 <= e /\ Zpos m < 2 ^ 53 /\ (-1074 < e -> 2 ^ 52 <= Zpos m).
Proof.
  unfold bounded, canonical_mantissa, fexp, emin, prec, emax.
  intros H. apply andb_prop in H. destruct H as [H _].
  apply Z.eqb_eq in H.
  pose proof (digits2_pos_bounds m) as [Hlo Hhi].
  set (d := Zpos (digits2_pos m)) in *.
  assert (Hd : 0 < d) by (unfold d; lia).
  repeat split.
  - lia.
  - eapply Z.lt_le_trans; [exact Hhi|]. apply Z.pow_le_mono_r; lia.
  - intros He. assert (d = 53) by lia.
    replace 52 with (d - 1) by lia. exact Hlo.
Qed.

Lemma scaled_lt (m1 m2 : positive) (e1 e2 : Z) :
  bounded prec emax m1 e1 = true -> bounded prec emax m2 e2 = true ->
  e1 < e2 ->
  Zpos m1 * 2 ^ (e1 + 1074) < Zpos m2 * 2 ^ (e2 + 1074).
Proof.
  intros H1 H2 He.
  destruct (bounded_inv _ _ H1) as [He1 [Hm1 _]].
  destruct (bounded_inv _ _ H2) as [He2 [_ Hm2]].
  specialize (Hm2 ltac:(lia)).
  assert (Hp1 : 0 < 2 ^ (e1 + 1074)) by (apply Z.pow_pos_nonneg; lia).
  assert (Hp2 : 0 < 2 ^ (e2 + 1074)) by (apply Z.pow_pos_nonneg; lia).
  apply Z.lt_le_trans with (2 ^ 53 * 2 ^ (e1 + 1074)).
  - apply Z.mul_lt_mono_pos_r; assumption.
  - apply Z.le_trans with (2 ^ 52 * 2 ^ (e2 + 1074)).
    + rewrite <- !Z.pow_add_r by lia. apply Z.pow_le_mono_r; lia.
    + apply Z.mul_le_mono_pos_r; assumption.
Qed.

(** Comparing exponents first and mantissas next is comparing values. *)
Lemma magnitude_compare (m1 m2 : positive) (e1 e2 : Z) :
  bounded prec emax m1 e1 = true -> bounded prec emax m2 e2 = true ->
  match e1 ?= e2 with
  | Lt => Lt
  | Gt => Gt
  | Eq => Pos.compare_cont Eq m1 m2
  end = (Zpos m1 * 2 ^ (e1 + 1074) ?= Zpos m2 * 2 ^ (e2 + 1074)).
Proof.
  intros H1 H2. destruct (Z.compare_spec e1 e2) as [He|He|He].
  - subst e2. destruct (bounded_inv _ _ H1) as [He1 _].
    rewrite Pos.compare_cont_spec, <- Zmult_compare_compat_r.
    + change (Zpos m1 ?= Zpos m2) with (m1 ?= m2)%positive.
      destruct (m1 ?= m2)%positive; reflexivity.
    + apply Z.lt_gt, Z.pow_pos_nonneg; lia.
  - symmetry. apply Z.compare_lt_iff. now apply scaled_lt.
  - symmetry. apply Z.compare_gt_iff. now apply scaled_lt.
Qed.

Lemma compare_ulps (x y : float) :
  is_float64 x = true -> is_float64 y = true ->
  is_finite x = true -> is_finite y = true ->
  SFcompare x y = Some (ulps x ?= ulps y).
Proof.
  destruct x as [sx|sx| |sx mx ex]; try discriminate;
  destruct y as [sy|sy| |sy my ey]; try discriminate;
  unfold is_float64; cbn [valid_binary is_finite ulps SFcompare];
  intros Hx Hy _ _.
  - reflexivity.
  - destruct (bounded_inv _ _ Hy) as [He _].
    assert (0 < Zpos my * 2 ^ (ey + 1074))
      by (apply Z.mul_pos_pos; [lia | apply Z.pow_pos_nonneg; lia]).
    f_equal. symmetry. destruct sy; cbn [cond_Zopp].
    + apply Z.compare_gt_iff. lia.
    + apply Z.compare_lt_iff. lia.
  - destruct (bounded_inv _ _ Hx) as [He _].
    assert (0 < Zpos mx * 2 ^ (ex + 1074))
      by (apply Z.mul_pos_pos; [lia | apply Z.pow_pos_nonneg; lia]).
    f_equal. symmetry. destruct sx; cbn [cond_Zopp].
    + apply Z.compare_lt_iff. lia.
    + apply Z.compare_gt_iff. lia.
  - destruct (bounded_inv _ _ Hx) as [Hex _].
    destruct (bounded_inv _ _ Hy) as [Hey _].
    assert (0 < Zpos mx * 2 ^ (ex + 1074))
      by (apply Z.mul_pos_pos; [lia | apply Z.pow_pos_nonneg; lia]).
    assert (0 < Zpos my * 2 ^ (ey + 1074))
      by (apply Z.mul_pos_pos; [lia | apply Z.pow_pos_nonneg; lia]).
    pose proof (magnitude_compare mx my ex ey Hx Hy) as Hm.
    f_equal. destruct sx, sy; cbn [cond_Zopp].
    + rewrite Z.compare_opp.
      rewrite (Z.compare_antisym (Zpos mx * 2 ^ (ex + 1074))), <- Hm.
      destruct (ex ?= ey); reflexivity.
    + symmetry. apply Z.compare_lt_iff. lia.
    + symmetry. apply Z.compare_gt_iff. lia.
    + exact Hm.
Qed.

(** The exact value is the number of units times [2^-1074]. *)
Lemma value_ulps (x : float) (q : Q) :
  is_float64 x = true -> real_value x = Some q ->
  (q == inject_Z (ulps x) * Qpower 2 (-1074))%Q.
Proof.
  destruct x as [sx|sx| |sx mx ex]; try discriminate;
  unfold is_float64; cbn [valid_binary real_value ulps]; intros Hx Hq;
  injection Hq as <-.
  - rewrite Qmult_0_l. reflexivity.
  - destruct (bounded_inv _ _ Hx) as [He _].
    assert (Hc : cond_Zopp sx (Zpos mx * 2 ^ (ex + 1074))
                 = cond_Zopp sx (Zpos mx) * 2 ^ (ex + 1074))
      by (destruct sx; cbn [cond_Zopp]; lia).
    rewrite Hc, inject_Z_mult, Zpower_Qpower by lia.
    rewrite <- Qmult_assoc. apply Qmult_comp; [reflexivity|].
    change (inject_Z 2) with 2%Q.
    rewrite <- Qpower_plus by discriminate.
    replace (ex + 1074 + -1074) with ex by lia. reflexivity.
Qed.

Lemma Qcompare_scaled (a b : Z) (c : Q) :
  (0 < c)%Q -> (inject_Z a * c ?= inject_Z b * c)%Q = (a ?= b).
Proof.
  intros Hc. destruct (Z.compare_spec a b) as [H|H|H].
  - subst b. apply Qeq_alt. reflexivity.
  - apply Qlt_alt. apply Qmult_lt_r; [exact Hc|]. now rewrite <- Zlt_Qlt.
  - apply Qgt_alt. apply Qmult_lt_r; [exact Hc|]. now rewrite <- Zlt_Qlt.
Qed.

(** [SFcompare] on two finite binary64 floats compares their values. *)
Lemma compare_values (x y : float) (qx qy : Q) :
  is_float64 x = true -> is_float64 y = true ->
  real_value x = Some qx -> real_value y = Some qy ->
  SFcompare x y = Some (qx ?= qy)%Q.
Proof.
  intros Hx Hy Vx Vy.
  assert (Fx : is_finite x = true) by (destruct x; try discriminate; reflexivity).
  assert (Fy : is_finite y = true) by (destruct y; try discriminate; reflexivity).
  rewrite (compare_ulps x y Hx Hy Fx Fy). f_equal.
  rewrite (Qcompare_comp _ _ (value_ulps x qx Hx Vx) _ _ (value_ulps y qy Hy Vy)).
  symmetry. apply Qcompare_scaled. apply Qpower_0_lt. reflexivity.
Qed.

Lemma le_values (x y : float) (qx qy : Q) :
  is_float64 x = true -> is_float64 y = true ->
  real_value x = Some qx -> real_value y = Some qy ->
  le x y = Qle_bool qx qy.
Proof.
  intros Hx Hy Vx Vy. unfold le, SFleb.
  rewrite (compare_values x y qx qy Hx Hy Vx Vy).
  destruct (Qcompare qx qy) eqn:Hc.
  - symmetry. apply Qle_bool_iff. apply Qle_alt. rewrite Hc. discriminate.
  - symmetry. apply Qle_bool_iff. apply Qle_alt. rewrite Hc. discriminate.
  - symmetry. apply not_true_is_false. intros H.
    apply Qle_bool_iff, Qle_alt in H. now apply H.
Qed.

(** A chained comparison [lo <= v <= hi] against two finite floats holds
    exactly when the value of [v] is in the interval: a NaN and the
    infinities fail it. *)
Lemma le_le_within (lo hi v : float) (qlo qhi : Q) :
  is_float64 lo = true -> is_float64 hi = true -> is_float64 v = true ->
  real_value lo = Some qlo -> real_value hi = Some qhi ->
  (le lo v && le v hi)%bool = within qlo qhi v.
Proof.
  intros Hlo Hhi Hv Vlo Vhi. unfold within.
  destruct (real_value v) as [q|] eqn:Vv.
  - now rewrite (le_values lo v qlo q), (le_values v hi q qhi).
  - destruct v as [s|s| |s m e]; try discriminate.
    + destruct lo as [sl|sl| |sl ml el]; try discriminate;
      destruct hi as [sh|sh| |sh mh eh]; try discriminate;
      destruct s; reflexivity.
    + destruct lo as [sl|sl| |sl ml el]; try discriminate; reflexivity.
Qed.

Lemma value_sign (s : bool) (m : positive) (e : Z) q :
  real_value (S754_finite s m e) = Some q -> Qle_bool 0 q = negb s.
Proof.
  cbn [real_value]. intros H. injection H as <-.
  assert (Hp : (0 < Qpower 2 e)%Q) by (apply Qpower_0_lt; reflexivity).
  destruct s; cbn [cond_Zopp negb].
  - apply not_true_is_false. intros H. apply Qle_bool_iff in H.
    apply (Qlt_not_le (inject_Z (Zneg m) * 2 ^ e) 0); [|exact H].
    rewrite <- (Qmult_0_l (2 ^ e)). apply Qmult_lt_r; [exact Hp|]. reflexivity.
  - apply Qle_bool_iff. apply Qmult_le_0_compat; [discriminate|].
    now apply Qlt_le_weak.
Qed.

(** Not negative is at least zero, or a NaN. *)
Lemma not_negative_cases (x : float) :
  negb (negative x) = true <-> at_least_zero x = true \/ x = S754_nan.
Proof.
  destruct x as [s|s| |s m e].
  - split; [intros _; left; reflexivity | intros _; reflexivity].
  - cbn [negative at_least_zero].
    split; [intros H; left; exact H | intros [H|H]; [exact H | discriminate H]].
  - split; [intros _; right; reflexivity | intros _; reflexivity].
  - unfold negative, at_least_zero, real_value. rewrite negb_involutive.
    split; [intros H; left; exact H | intros [H|H]; [exact H | discriminate H]].
Qed.

(** [v < 0] is [negative v], for every float. *)
Lemma lt_zero_negative (v : float) : lt v (S754_zero false) = negative v.
Proof.
  destruct v as [s|s| |s m e]; try (destruct s; reflexivity); try reflexivity.
  unfold negative, real_value. rewrite (value_sign s m e _ eq_refl).
  destruct s; reflexivity.
Qed.

End FloatFacts.

Module RoundingFacts.
Import Float FloatFacts.

Lemma fexp_mono (x y : Z) : x <= y -> fexp prec emax x <= fexp prec emax y.
Proof. unfold fexp, emin, prec, emax. lia. Qed.

Lemma fexp_ge_emin (x : Z) : -1074 <= fexp prec emax x.
Proof. unfold fexp, emin, prec, emax. lia. Qed.

Lemma fexp_small (x e : Z) : x <= e -> e <= fexp prec emax x -> e <= -1074.
Proof. unfold fexp, emin, prec, emax. lia. Qed.

Lemma Zdigits2_nonneg (m : Z) : 0 <= Zdigits2 m.
Proof. destruct m; simpl; lia. Qed.

Lemma Zdigits2_bounds (m : Z) :
  0 < m -> 2 ^ (Zdigits2 m - 1) <= m < 2 ^ Zdigits2 m.
Proof. destruct m as [|p|p]; try lia. intros _. apply digits2_pos_bounds. Qed.

Lemma pow2_lt_exponent (a b : Z) : 2 ^ a < 2 ^ b -> a < b.
Proof.
  intros H. destruct (Z_lt_le_dec a b) as [|Hle]; [assumption|].
  pose proof (Z.pow_le_mono_r 2 b a ltac:(lia) Hle). lia.
Qed.

Lemma Zdigits2_unique (m d : Z) :
  0 < m -> 2 ^ (d - 1) <= m < 2 ^ d -> Zdigits2 m = d.
Proof.
  intros Hm [Hlo Hhi]. destruct (Zdigits2_bounds m Hm) as [Dlo Dhi].
  assert (d - 1 < Zdigits2 m) by (apply pow2_lt_exponent; lia).
  assert (Zdigits2 m - 1 < d) by (apply pow2_lt_exponent; lia).
  lia.
Qed.

Lemma Zdigits2_mono (a b : Z) : 0 <= a <= b -> Zdigits2 a <= Zdigits2 b.
Proof.
  intros [Ha Hab]. destruct (Z.eq_dec a 0) as [->|Hn].
  - apply Zdigits2_nonneg.
  - destruct (Zdigits2_bounds a ltac:(lia)) as [Alo _].
    destruct (Zdigits2_bounds b ltac:(lia)) as [_ Bhi].
    assert (Zdigits2 a - 1 < Zdigits2 b) by (apply pow2_lt_exponent; lia).
    lia.
Qed.

(** Digits of [m / 2^n]. *)
Lemma div_pow2_digits (m n : Z) :
  0 < m -> 0 <= n ->
  (n < Zdigits2 m ->
     0 < m / 2 ^ n /\ Zdigits2 (m / 2 ^ n) = Zdigits2 m - n) /\
  (Zdigits2 m <= n -> m / 2 ^ n = 0).
Proof.
  intros Hm Hn. destruct (Zdigits2_bounds m Hm) as [Dlo Dhi].
  assert (Hp : 0 < 2 ^ n) by (apply Z.pow_pos_nonneg; lia).
  split.
  - intros Hlt.
    assert (Hq : 2 ^ (Zdigits2 m - n - 1) <= m / 2 ^ n < 2 ^ (Zdigits2 m - n)).
    { split.
      - apply Z.div_le_lower_bound; [exact Hp|].
        rewrite <- Z.pow_add_r by lia.
        replace (n + (Zdigits2 m - n - 1)) with (Zdigits2 m - 1) by lia.
        exact Dlo.
      - apply Z.div_lt_upper_bound; [exact Hp|].
        rewrite <- Z.pow_add_r by lia.
        replace (n + (Zdigits2 m - n)) with (Zdigits2 m) by lia.
        exact Dhi. }
    assert (Hq0 : 0 < m / 2 ^ n).
    { apply Z.lt_le_trans with (2 ^ (Zdigits2 m - n - 1)); [|apply Hq].
      apply Z.pow_pos_nonneg; lia. }
    split; [exact Hq0|]. apply Zdigits2_unique; [exact Hq0|].
    exact Hq.
  - intros Hle. apply Z.div_small. split; [lia|].
    apply Z.lt_le_trans with (2 ^ Zdigits2 m); [exact Dhi|].
    apply Z.pow_le_mono_r; lia.
Qed.

Lemma shr_1_m (mrs : shr_record) :
  0 <= shr_m mrs -> shr_m (shr_1 mrs) = shr_m mrs / 2.
Proof.
  destruct mrs as [m r s]. cbn [shr_m]. intros Hm.
  rewrite <- Z.div2_div.
  destruct m as [|[p|p|]|p]; try reflexivity. lia.
Qed.

Lemma iter_shr_1_m (p : positive) (mrs : shr_record) :
  0 <= shr_m mrs ->
  shr_m (iter_pos shr_1 p mrs) = shr_m mrs / 2 ^ Zpos p.
Proof.
  revert mrs. induction p as [p IH|p IH|]; intros mrs Hm; cbn [iter_pos].
  - assert (H1 : 0 <= shr_m (shr_1 mrs))
      by (rewrite shr_1_m by exact Hm; apply Z.div_pos; lia).
    assert (Hp : 0 < 2 ^ Zpos p) by (apply Z.pow_pos_nonneg; lia).
    assert (H2 : 0 <= shr_m (iter_pos shr_1 p (shr_1 mrs)))
      by (rewrite IH by exact H1; apply Z.div_pos; lia).
    rewrite IH by exact H2. rewrite IH by exact H1. rewrite shr_1_m by exact Hm.
    rewrite !Z.div_div by lia.
    f_equal. replace (Zpos p~1) with (1 + (Zpos p + Zpos p)) by lia.
    rewrite !Z.pow_add_r by lia. reflexivity.
  - assert (Hp : 0 < 2 ^ Zpos p) by (apply Z.pow_pos_nonneg; lia).
    assert (H2 : 0 <= shr_m (iter_pos shr_1 p mrs))
      by (rewrite IH by exact Hm; apply Z.div_pos; lia).
    rewrite IH by exact H2. rewrite IH by exact Hm.
    rewrite !Z.div_div by lia.
    f_equal. replace (Zpos p~0) with (Zpos p + Zpos p) by lia.
    rewrite !Z.pow_add_r by lia. reflexivity.
  - now apply shr_1_m.
Qed.

Lemma shr_record_of_loc_m (m : Z) (l : location) :
  shr_m (shr_record_of_loc m l) = m.
Proof. destruct l as [|[ | | ]]; reflexivity. Qed.

(** Shifting a mantissa down to the exponent its size calls for leaves a
    canonical mantissa. *)
Lemma shr_fexp_spec (m e : Z) (l : location) mrs e' :
  0 <= m -> e <= fexp prec emax (Zdigits2 m + e) ->
  shr_fexp prec emax m e l = (mrs, e') ->
  e' = fexp prec emax (Zdigits2 m + e) /\ 0 <= shr_m mrs /\
  (shr_m mrs = 0 -> Zdigits2 m + e <= e') /\
  (forall p, shr_m mrs = Zpos p -> canonical_mantissa prec emax p e' = true).
Proof.
  intros Hm He. unfold shr_fexp, shr.
  destruct (fexp prec emax (Zdigits2 m + e) - e) as [|n|n] eqn:Hn; try lia;
  intros H; injection H as <- <-.
  - rewrite shr_record_of_loc_m. repeat split; try lia.
    + intros ->. simpl in *. lia.
    + intros p ->. unfold canonical_mantissa. apply Z.eqb_eq.
      cbn [Zdigits2] in *. lia.
  - rewrite iter_shr_1_m by (rewrite shr_record_of_loc_m; exact Hm).
    rewrite shr_record_of_loc_m.
    assert (Hp : 0 < 2 ^ Zpos n) by (apply Z.pow_pos_nonneg; lia).
    split; [lia|]. split; [apply Z.div_pos; lia|].
    destruct (Z.eq_dec m 0) as [->|Hm0].
    + split; [intros _; simpl in *; lia|].
      intros p Hq. rewrite Z.div_0_l in Hq by lia. discriminate.
    + destruct (div_pow2_digits m (Zpos n) ltac:(lia) ltac:(lia)) as [Hbig Hsmall].
      split.
      * intros Hq. destruct (Z_lt_le_dec (Zpos n) (Zdigits2 m)) as [Hlt|Hle]; [|lia].
        destruct (Hbig Hlt) as [Hpos _]. lia.
      * intros p Hq.
        destruct (Z_lt_le_dec (Zpos n) (Zdigits2 m)) as [Hlt|Hle].
        -- destruct (Hbig Hlt) as [_ Hd]. rewrite Hq in Hd. cbn [Zdigits2] in Hd.
           unfold canonical_mantissa. apply Z.eqb_eq. rewrite Hd.
           replace (Zdigits2 m - Zpos n + (e + Zpos n)) with (Zdigits2 m + e) by lia.
           lia.
        -- rewrite (Hsmall Hle) in Hq. discriminate.
Qed.

Lemma round_nearest_even_range (m : Z) (l : location) :
  m <= round_nearest_even m l <= m + 1.
Proof.
  destruct l as [|[ | | ]]; cbn [round_nearest_even]; try lia.
  destruct (Z.even m); lia.
Qed.

(** Rounding a mantissa that is not too coarse gives a binary64. *)
Lemma binary_round_aux_valid (sx : bool) (mx ex : Z) (lx : location) :
  0 <= mx -> ex <= fexp prec emax (Zdigits2 mx + ex) ->
  is_float64 (binary_round_aux prec emax sx mx ex lx) = true.
Proof.
  intros Hm He. unfold binary_round_aux.
  destruct (shr_fexp prec emax mx ex lx) as [mrs' e'] eqn:H1.
  destruct (shr_fexp_spec _ _ _ _ _ Hm He H1) as [He' [Hm' [Hz' Hc']]].
  pose proof (round_nearest_even_range (shr_m mrs') (loc_of_shr_record mrs')) as Hr.
  set (m2 := round_nearest_even (shr_m mrs') (loc_of_shr_record mrs')) in *.
  assert (He2 : e' <= fexp prec emax (Zdigits2 m2 + e')).
  { destruct (shr_m mrs') as [|p|p] eqn:Hs; [| |lia].
    - specialize (Hz' eq_refl).
      assert (e' <= -1074) by (apply (fexp_small (Zdigits2 mx + ex)); lia).
      pose proof (fexp_ge_emin (Zdigits2 m2 + e')). lia.
    - specialize (Hc' p eq_refl). unfold canonical_mantissa in Hc'.
      apply Z.eqb_eq in Hc'. rewrite <- Hc' at 1. apply fexp_mono.
      assert (Zdigits2 (Zpos p) <= Zdigits2 m2) by (apply Zdigits2_mono; lia).
      cbn [Zdigits2] in *. lia. }
  destruct (shr_fexp prec emax m2 e' loc_Exact) as [mrs'' e''] eqn:H2.
  assert (Hm2 : 0 <= m2) by lia.
  destruct (shr_fexp_spec _ _ _ _ _ Hm2 He2 H2) as [_ [_ [_ Hc'']]].
  destruct (shr_m mrs'') as [|p|p] eqn:Hs; try reflexivity.
  destruct (e'' <=? emax - prec) eqn:Hb; [|reflexivity].
  unfold is_float64. cbn [valid_binary]. unfold bounded.
  rewrite (Hc'' p eq_refl). exact Hb.
Qed.

Lemma digits2_pos_iter_xO (m d : positive) :
  digits2_pos (Pos.iter xO m d) = (digits2_pos m + d)%positive.
Proof.
  induction d as [|d IH] using Pos.peano_ind.
  - simpl. lia.
  - rewrite Pos.iter_succ. cbn [digits2_pos]. rewrite IH. lia.
Qed.

Lemma binary_round_valid (sx : bool) (mx : positive) (ex : Z) :
  is_float64 (binary_round prec emax sx mx ex) = true.
Proof.
  unfold binary_round.
  remember (fexp prec emax (Zpos (digits2_pos mx) + ex)) as F eqn:HF.
  destruct (shl_align mx ex F) as [mz ez] eqn:Ha.
  apply binary_round_aux_valid; [lia|].
  unfold shl_align in Ha.
  destruct (F - ex) as [|d|d] eqn:Hd; injection Ha as <- <-; unfold Zdigits2.
  - rewrite <- HF. lia.
  - rewrite <- HF. lia.
  - rewrite digits2_pos_iter_xO, Pos2Z.inj_add.
    replace (Zpos (digits2_pos mx) + Zpos d + F)
      with (Zpos (digits2_pos mx) + ex) by lia.
    rewrite <- HF. lia.
Qed.

Lemma of_int_valid (n : Z) (x : float) : of_int n = Some x -> is_float64 x = true.
Proof.
  unfold of_int. intros H.
  assert (Hv : is_float64 (binary_normalize prec emax n 0 false) = true)
    by (destruct n; [reflexivity | apply binary_round_valid ..]).
  destruct (binary_normalize prec emax n 0 false); try discriminate;
    injection H as <-; exact Hv.
Qed.

(** ** The sign of a rounded integer *)

Lemma fexp_above (k : Z) : -1074 < k -> fexp prec emax k < k.
Proof. unfold fexp, emin, prec, emax. lia. Qed.

Lemma binary_round_aux_sign (sx : bool) (mx ex : Z) (lx : location) :
  0 < mx -> ex <= fexp prec emax (Zdigits2 mx + ex) -> -1074 < Zdigits2 mx + ex ->
  (exists m e, binary_round_aux prec emax sx mx ex lx = S754_finite sx m e) \/
  binary_round_aux prec emax sx mx ex lx = S754_infinity sx.
Proof.
  intros Hm He Hk. unfold binary_round_aux.
  destruct (shr_fexp prec emax mx ex lx) as [mrs' e'] eqn:H1.
  destruct (shr_fexp_spec _ _ _ _ _ (Z.lt_le_incl _ _ Hm) He H1) as [He' [Hm' [Hz' Hc']]].
  pose proof (round_nearest_even_range (shr_m mrs') (loc_of_shr_record mrs')) as Hr.
  set (m2 := round_nearest_even (shr_m mrs') (loc_of_shr_record mrs')) in *.
  pose proof (fexp_above _ Hk) as Hlt.
  assert (Hp' : 0 < shr_m mrs').
  { destruct (Z.eq_dec (shr_m mrs') 0) as [H0|H0]; [|lia].
    specialize (Hz' H0). lia. }
  assert (Hm2 : 0 < m2) by lia.
  assert (He2 : e' <= fexp prec emax (Zdigits2 m2 + e')).
  { destruct (shr_m mrs') as [|p|p] eqn:Hs; [lia| |lia].
    specialize (Hc' p eq_refl). unfold canonical_mantissa in Hc'.
    apply Z.eqb_eq in Hc'. rewrite <- Hc' at 1. apply fexp_mono.
    assert (Zdigits2 (Zpos p) <= Zdigits2 m2) by (apply Zdigits2_mono; lia).
    cbn [Zdigits2] in *. lia. }
  destruct (shr_fexp prec emax m2 e' loc_Exact) as [mrs'' e''] eqn:H2.
  destruct (shr_fexp_spec _ _ _ _ _ (Z.lt_le_incl _ _ Hm2) He2 H2) as [He'' [Hm'' [Hz'' _]]].
  assert (Hd2 : 0 < Zdigits2 m2).
  { destruct (Zdigits2_bounds m2 Hm2) as [_ Hhi].
    destruct (Z_lt_le_dec 0 (Zdigits2 m2)) as [|Hle]; [assumption|].
    pose proof (Z.pow_le_mono_r 2 (Zdigits2 m2) 0 ltac:(lia) Hle) as Hpw.
    pose proof (Zdigits2_nonneg m2). 
    assert (Zdigits2 m2 = 0) as E by lia. rewrite E in Hhi. simpl in Hhi. lia. }
  pose proof (fexp_ge_emin (Zdigits2 mx + ex)) as Hge.
  assert (Hk2 : -1074 < Zdigits2 m2 + e') by lia.
  pose proof (fexp_above _ Hk2) as Hlt2.
  destruct (shr_m mrs'') as [|p|p] eqn:Hs.
  - specialize (Hz'' eq_refl). lia.
  - destruct (e'' <=? emax - prec); [left; eauto | right; reflexivity].
  - lia.
Qed.

Lemma binary_round_sign (sx : bool) (mx : positive) :
  (exists m e, binary_round prec emax sx mx 0 = S754_finite sx m e) \/
  binary_round prec emax sx mx 0 = S754_infinity sx.
Proof.
  unfold binary_round.
  remember (fexp prec emax (Zpos (digits2_pos mx) + 0)) as F eqn:HF.
  destruct (shl_align mx 0 F) as [mz ez] eqn:Ha.
  unfold shl_align in Ha.
  destruct (F - 0) as [|d|d] eqn:Hd; injection Ha as <- <-;
    (apply binary_round_aux_sign; [lia| |]); unfold Zdigits2.
  - rewrite <- HF. lia.
  - lia.
  - rewrite <- HF. lia.
  - lia.
  - rewrite digits2_pos_iter_xO, Pos2Z.inj_add.
    replace (Zpos (digits2_pos mx) + Zpos d + F)
      with (Zpos (digits2_pos mx) + 0) by lia.
    rewrite <- HF. lia.
  - rewrite digits2_pos_iter_xO, Pos2Z.inj_add. lia.
Qed.

(** [float(n)] of an [int] is negative exactly when [n] is. *)
Lemma of_int_negative (n : Z) (x : float) :
  of_int n = Some x -> negative x = (n <? 0).
Proof.
  unfold of_int. destruct n as [|p|p]; cbn [binary_normalize].
  - intros H. injection H as <-. reflexivity.
  - destruct (binary_round_sign false p) as [[m [e ->]]| ->]; [|discriminate].
    intros H. injection H as <-. unfold negative, real_value.
    now rewrite (value_sign false m e _ eq_refl).
  - destruct (binary_round_sign true p) as [[m [e ->]]| ->]; [|discriminate].
    intros H. injection H as <-. unfold negative, real_value.
    now rewrite (value_sign true m e _ eq_refl).
Qed.

(** The quotient [SFdiv_core_binary] hands to the rounding is fine enough. *)
Lemma div_core_precise (m1 m2 e1 e2 q e : Z) (l : location) :
  0 < m1 -> 0 < m2 ->
  SFdiv_core_binary prec emax m1 e1 m2 e2 = (q, e, l) ->
  0 <= q /\ e <= fexp prec emax (Zdigits2 q + e).
Proof.
  intros H1 H2. unfold SFdiv_core_binary.
  set (D := Zdigits2 m1 + e1 - (Zdigits2 m2 + e2)).
  set (e' := Z.min (fexp prec emax D) (e1 - e2)).
  set (s := e1 - e2 - e').
  assert (Hs : 0 <= s) by (unfold s, e'; lia).
  set (m' := match s with Zpos _ => Z.shiftl m1 s | 0 => m1 | Zneg _ => 0 end).
  assert (Hm' : m' = m1 * 2 ^ s).
  { unfold m'. destruct s as [|p|p] eqn:Hsp; try lia.
    - now rewrite Z.shiftl_mul_pow2 by lia. }
  clearbody m'. subst m'.
  assert (Hp : 0 < 2 ^ s) by (apply Z.pow_pos_nonneg; lia).
  pose proof (Z.div_eucl_eq (m1 * 2 ^ s) m2 ltac:(lia)) as Hdiv.
  pose proof (Z.mod_pos_bound (m1 * 2 ^ s) m2 H2) as Hmod.
  unfold Z.modulo in Hmod.
  destruct (Z.div_eucl (m1 * 2 ^ s) m2) as [q' r'].
  intros H; injection H as <- <- _.
  assert (Hq : 0 <= q') by nia.
  split; [exact Hq|].
  destruct (Zdigits2_bounds m1 H1) as [A1 _].
  destruct (Zdigits2_bounds m2 H2) as [_ B2].
  assert (Hlow : 2 ^ (Zdigits2 m1 - 1 + s) <= m1 * 2 ^ s).
  { pose proof (Zdigits2_nonneg m1).
    assert (0 < Zdigits2 m1) by (destruct m1; simpl in *; lia).
    rewrite Z.pow_add_r by lia. apply Z.mul_le_mono_pos_r; assumption. }
  destruct (Z.eq_dec q' 0) as [->|Hq0].
  - assert (Hx : 2 ^ (Zdigits2 m1 - 1 + s) < 2 ^ Zdigits2 m2) by lia.
    apply pow2_lt_exponent in Hx.
    cbn [Zdigits2]. 
    assert (D <= e') by (unfold D, s in *; lia).
    assert (e' <= -1074) by (apply (fexp_small D); [assumption | unfold e'; lia]).
    pose proof (fexp_ge_emin (0 + e')). lia.
  - destruct (Zdigits2_bounds q' ltac:(lia)) as [_ Q2].
    pose proof (Zdigits2_nonneg q'). pose proof (Zdigits2_nonneg m2).
    assert (Hup : m1 * 2 ^ s < 2 ^ (Zdigits2 q' + Zdigits2 m2)).
    { rewrite Z.pow_add_r by lia.
      apply Z.lt_le_trans with (m2 * (q' + 1)); [lia|].
      rewrite Z.mul_comm. apply Z.mul_le_mono_nonneg; lia. }
    assert (Hx : 2 ^ (Zdigits2 m1 - 1 + s) < 2 ^ (Zdigits2 q' + Zdigits2 m2)) by lia.
    apply pow2_lt_exponent in Hx.
    apply Z.le_trans with (fexp prec emax D); [unfold e'; lia|].
    apply fexp_mono. unfold D, s in *. lia.
Qed.

Lemma of_decimal_valid (sgn : bool) (m e10 : Z) :
  is_float64 (of_decimal sgn m e10) = true.
Proof.
  unfold of_decimal. destruct m as [|p|p]; try reflexivity.
  destruct (0 <=? e10) eqn:He10; [apply binary_round_valid|].
  apply Z.leb_gt in He10.
  destruct (SFdiv_core_binary prec emax (Zpos p) 0 (10 ^ (- e10)) 0)
    as [[q e] l] eqn:Hd.
  assert (Hp : 0 < Zpos p) by lia.
  assert (Hpos : 0 < 10 ^ (- e10)) by (apply Z.pow_pos_nonneg; lia).
  destruct (div_core_precise _ _ _ _ _ _ _ Hp Hpos Hd) as [Hq He].
  now apply binary_round_aux_valid.
Qed.

Lemma of_str_valid ucd (s : Text.str) (x : float) :
  of_str ucd s = Some x -> is_float64 x = true.
Proof.
  unfold of_str.
  destruct (to_ascii ucd s) as [a|]; [|discriminate].
  destruct (drop_underscores 0%N a) as [b|]; [|discriminate].
  destruct (take_sign (c_strip b)) as [sgn r].
  destruct (parse_number sgn r) as [y|] eqn:Hn.
  - intros H; injection H as <-. revert Hn. unfold parse_number.
    destruct (take_digits 0 0 r) as [[m1 n1] r1].
    destruct (match r1 with
              | 46%N :: r0 => take_digits m1 0 r0
              | _ => (m1, 0, r1)
              end) as [[m2 n2] r2].
    destruct (n1 + n2 =? 0); [discriminate|].
    destruct r2 as [|c r2].
    + intros H; injection H as <-. apply of_decimal_valid.
    + destruct (N.eqb c 101 || N.eqb c 69)%bool; [|discriminate].
      destruct (take_sign r2) as [eneg r'].
      destruct (take_digits 0 0 r') as [[ex nx] r3].
      destruct (nx =? 0); [discriminate|].
      destruct r3; [|discriminate].
      intros H; injection H as <-. apply of_decimal_valid.
  - unfold parse_inf_or_nan.
    destruct (_ || _)%bool; [intros H; injection H as <-; reflexivity|].
    destruct (Text.str_eqb _ _); [|discriminate].
    intros H; injection H as <-; reflexivity.
Qed.

End RoundingFacts.

(* ===================================================================== *)
(** * Properties of the module's functions and setters *)
(* ===================================================================== *)

Module Milestone1Facts.
Import Text Float Milestone1 TextFacts FloatFacts RoundingFacts.

(** Unfold a setter down to its tests, then take every branch. *)
Ltac run_setter :=
  unfold city_setter, country_setter, latitude_setter, longitude_setter,
    temperature_c_setter, windspeed_kmh_setter, observation_time_setter,
    notes_setter, bind, call, raise, assign.

Ltac setter_branches v :=
  repeat match goal with
    | |- context [if ?c then _ else _] => destruct c
    | |- context [match to_float ?u ?n ?x with _ => _ end] =>
        destruct (to_float u n x)
    | |- context [match as_str ?x with _ => _ end] => destruct (as_str x)
    | |- context [match v with _ => _ end] => destruct v
    end.

Section WithUnicode.
Variable ucd : UnicodeData.

(** ** [to_float] *)

Lemma builtin_float_valid (v : value) (x : float) :
  well_formed v -> builtin_float ucd v = Ok x -> is_float64 x = true.
Proof.
  destruct v as [|b|n|y|s|t]; cbn [builtin_float well_formed]; intros Hw H.
  - discriminate.
  - injection H as <-. apply of_decimal_valid.
  - destruct (of_int n) as [y|] eqn:Hn; [|discriminate].
    injection H as <-. exact (of_int_valid n y Hn).
  - injection H as <-. exact Hw.
  - destruct (of_str ucd s) as [y|] eqn:Hs; [|discriminate].
    injection H as <-. exact (of_str_valid ucd s y Hs).
  - discriminate.
Qed.

Lemma to_float_ok (name : str) (v : value) (x : float) :
  to_float ucd name v = Ok x <-> builtin_float ucd v = Ok x.
Proof.
  unfold to_float. destruct (builtin_float ucd v) as [y|e].
  - reflexivity.
  - split; [|discriminate]. destruct (_ || _)%bool; discriminate.
Qed.

Lemma to_float_valid (name : str) (v : value) (x : float) :
  well_formed v -> to_float ucd name v = Ok x -> is_float64 x = true.
Proof. intros Hw H. apply to_float_ok in H. exact (builtin_float_valid v x Hw H). Qed.

(** What [to_float] does with each outcome of [float(value)]. *)
Lemma to_float_cases (name : str) (v : value) :
  match builtin_float ucd v with
  | Ok x => to_float ucd name v = Ok x
  | Raise TypeError | Raise ValueError =>
      to_float ucd name v = Raise (InvalidDataError (name ++ lit " must be a number."))
  | Raise e => to_float ucd name v = Raise e
  end.
Proof.
  unfold to_float. destruct (builtin_float ucd v) as [x|[]]; reflexivity.
Qed.

(** ** The range checks *)

Lemma within_compat (lo lo' hi hi' : Q) (x : float) :
  (lo == lo')%Q -> (hi == hi')%Q -> within lo hi x = within lo' hi' x.
Proof.
  intros Hlo Hhi. unfold within. destruct (real_value x) as [q|]; [|reflexivity].
  now rewrite Hlo, Hhi.
Qed.

Lemma range_check (lo hi : float) (qlo qhi qlo' qhi' : Q) (x : float) :
  is_float64 lo = true -> is_float64 hi = true ->
  real_value lo = Some qlo -> real_value hi = Some qhi ->
  (qlo == qlo')%Q -> (qhi == qhi')%Q ->
  is_float64 x = true ->
  (le lo x && le x hi)%bool = within qlo' qhi' x.
Proof.
  intros Hlo Hhi Vlo Vhi Elo Ehi Hx.
  rewrite (le_le_within lo hi x qlo qhi Hlo Hhi Hx Vlo Vhi).
  now apply within_compat.
Qed.

Lemma check_90 (x : float) :
  is_float64 x = true ->
  (le (neg f90) x && le x f90)%bool = within (-90 # 1) (90 # 1) x.
Proof.
  eapply range_check;
    [reflexivity | reflexivity | reflexivity | reflexivity
    | vm_compute; reflexivity | vm_compute; reflexivity].
Qed.

Lemma check_180 (x : float) :
  is_float64 x = true ->
  (le (neg f180) x && le x f180)%bool = within (-180 # 1) (180 # 1) x.
Proof.
  eapply range_check;
    [reflexivity | reflexivity | reflexivity | reflexivity
    | vm_compute; reflexivity | vm_compute; reflexivity].
Qed.

Lemma check_100_70 (x : float) :
  is_float64 x = true ->
  (le (neg f100) x && le x f70)%bool = within (-100 # 1) (70 # 1) x.
Proof.
  eapply range_check;
    [reflexivity | reflexivity | reflexivity | reflexivity
    | vm_compute; reflexivity | vm_compute; reflexivity].
Qed.

(** ** The setters, one outcome at a time *)

Lemma latitude_setter_coerced (v : value) (x : float) (self : WeatherObservation) :
  well_formed v -> to_float ucd (lit "latitude") v = Ok x ->
  latitude_setter ucd v self =
    if within (-90 # 1) (90 # 1) x
    then (Ok tt, set___latitude x self)
    else (Raise (InvalidDataError (lit "Latitude must be between -90 and 90")),
          self).
Proof.
  intros Hw Hx. unfold latitude_setter, bind, call. rewrite Hx.
  rewrite (check_90 x (to_float_valid _ v x Hw Hx)).
  destruct (within _ _ x); reflexivity.
Qed.

Lemma longitude_setter_coerced (v : value) (x : float) (self : WeatherObservation) :
  well_formed v -> to_float ucd (lit "Longitude") v = Ok x ->
  longitude_setter ucd v self =
    if within (-180 # 1) (180 # 1) x
    then (Ok tt, set___longitude x self)
    else (Raise (InvalidDataError (lit "Longitude must be between -180 and 180")),
          self).
Proof.
  intros Hw Hx. unfold longitude_setter, bind, call. rewrite Hx.
  rewrite (check_180 x (to_float_valid _ v x Hw Hx)).
  destruct (within _ _ x); reflexivity.
Qed.

Lemma temperature_c_setter_coerced (v : value) (x : float) (self : WeatherObservation) :
  well_formed v -> to_float ucd (lit "Temperature_c") v = Ok x ->
  temperature_c_setter ucd v self =
    if within (-100 # 1) (70 # 1) x
    then (Ok tt, set___temperature_c x self)
    else (Raise (InvalidDataError (lit "Temperature seems unrealistic")), self).
Proof.
  intros Hw Hx. unfold temperature_c_setter, bind, call. rewrite Hx.
  rewrite (check_100_70 x (to_float_valid _ v x Hw Hx)).
  destruct (within _ _ x); reflexivity.
Qed.

Lemma windspeed_kmh_setter_coerced (v : value) (x : float) (self : WeatherObservation) :
  to_float ucd (lit "windspeed_kmh") v = Ok x ->
  windspeed_kmh_setter ucd v self =
    if negative x
    then (Raise (InvalidDataError (lit "Windspeed cannot be negative")), self)
    else (Ok tt, set___windspeed_kmh x self).
Proof.
  intros Hx. unfold windspeed_kmh_setter, bind, call. rewrite Hx.
  unfold f0. rewrite lt_zero_negative. destruct (negative x); reflexivity.
Qed.

(** A setter whose coercion raises passes the exception on. *)
Lemma numeric_setter_coercion_raises (f : field) (name : str) (v : value) (e : exn)
    (self : WeatherObservation) :
  (f = Flatitude /\ name = lit "latitude" \/
   f = Flongitude /\ name = lit "Longitude" \/
   f = Ftemperature_c /\ name = lit "Temperature_c" \/
   f = Fwindspeed_kmh /\ name = lit "windspeed_kmh") ->
  to_float ucd name v = Raise e ->
  setattr ucd f v self = (Raise e, self).
Proof.
  intros [[-> ->]|[[-> ->]|[[-> ->]|[-> ->]]]] H; cbn [setattr];
    unfold latitude_setter, longitude_setter, temperature_c_setter,
      windspeed_kmh_setter, bind, call; rewrite H; reflexivity.
Qed.

Lemma not_nonempty_str_false (v : value) :
  not_nonempty_str v = false ->
  exists s, v = VStr s /\ truthy (strip s) = true.
Proof.
  unfold not_nonempty_str. destruct v as [|b|n|y|s|t]; try discriminate.
  cbn [as_str]. intros H. exists s. split; [reflexivity|].
  now apply negb_false_iff.
Qed.

Lemma sanitize_text_eq (s : str) :
  sanitize_text s = join (lit " ") (chars (strip s)).
Proof. unfold sanitize_text. now rewrite strip_idempotent. Qed.

Lemma sanitize_text_nonempty (s : str) :
  truthy (strip s) = true -> truthy (sanitize_text s) = true.
Proof. intros H. rewrite sanitize_text_eq. now apply join_chars_nonempty. Qed.

(** ** A setter that raises leaves the instance as it was *)

Lemma setattr_raise_unchanged (f : field) (v : value) (e : exn)
    (self self' : WeatherObservation) :
  setattr ucd f v self = (Raise e, self') -> self' = self.
Proof.
  destruct f; cbn [setattr]; run_setter;
    setter_branches v;
    intros H; now inversion H.
Qed.

(** Whether a setter raises does not depend on the instance. *)
Lemma setattr_outcome (f : field) (v : value) (self : WeatherObservation) :
  fst (setattr ucd f v self) = outcome ucd f v.
Proof.
  unfold outcome. destruct f; cbn [setattr]; run_setter;
    setter_branches v; reflexivity.
Qed.

(** ** What a setter that returns has stored *)

Lemma setattr_ok_field (f : field) (v : value) (self self' : WeatherObservation) :
  well_formed v ->
  setattr ucd f v self = (Ok tt, self') ->
  field_ok (fun w => negb (negative w)) f self'.
Proof.
  intros Hw. destruct f; cbn [setattr field_ok].
  - unfold city_setter, raise, assign.
    destruct (not_nonempty_str v) eqn:Hn; [discriminate|].
    destruct (not_nonempty_str_false v Hn) as [s [-> Hs]].
    intros H; injection H as <-. eexists; split; [reflexivity|].
    now apply sanitize_text_nonempty.
  - unfold country_setter, raise, assign.
    destruct (not_nonempty_str v) eqn:Hn; [discriminate|].
    destruct (not_nonempty_str_false v Hn) as [s [-> Hs]].
    intros H; injection H as <-. eexists; split; [reflexivity|].
    now apply upper_nonempty, sanitize_text_nonempty.
  - destruct (to_float ucd (lit "latitude") v) as [x|e] eqn:Hx.
    + rewrite (latitude_setter_coerced v x self Hw Hx).
      destruct (within _ _ x) eqn:Hin; [|discriminate].
      intros H; injection H as <-. exists x. now split.
    + unfold latitude_setter, bind, call. rewrite Hx. discriminate.
  - destruct (to_float ucd (lit "Longitude") v) as [x|e] eqn:Hx.
    + rewrite (longitude_setter_coerced v x self Hw Hx).
      destruct (within _ _ x) eqn:Hin; [|discriminate].
      intros H; injection H as <-. exists x. now split.
    + unfold longitude_setter, bind, call. rewrite Hx. discriminate.
  - destruct (to_float ucd (lit "Temperature_c") v) as [x|e] eqn:Hx.
    + rewrite (temperature_c_setter_coerced v x self Hw Hx).
      destruct (within _ _ x) eqn:Hin; [|discriminate].
      intros H; injection H as <-. exists x. now split.
    + unfold temperature_c_setter, bind, call. rewrite Hx. discriminate.
  - destruct (to_float ucd (lit "windspeed_kmh") v) as [x|e] eqn:Hx.
    + rewrite (windspeed_kmh_setter_coerced v x self Hx).
      destruct (negative x) eqn:Hin; [discriminate|].
      intros H; injection H as <-. exists x. split; [reflexivity|].
      now rewrite Hin.
    + unfold windspeed_kmh_setter, bind, call. rewrite Hx. discriminate.
  - unfold observation_time_setter, raise, assign.
    destruct (not_nonempty_str v) eqn:Hn; [discriminate|].
    destruct (not_nonempty_str_false v Hn) as [s [-> Hs]].
    intros H; injection H as <-. eexists; split; [reflexivity|].
    now apply sanitize_text_nonempty.
  - unfold notes_setter, raise, assign.
    destruct v as [|b|n|y|s|t]; cbn [as_str]; try discriminate;
      intros H; injection H as <-; eexists; reflexivity.
Qed.

(** The attributes of the other fields stay. *)
Lemma setattr_frame (wind_ok : float -> bool) (f g : field) (v : value)
    (r : result unit) (self self' : WeatherObservation) :
  setattr ucd f v self = (r, self') -> g <> f ->
  field_ok wind_ok g self -> field_ok wind_ok g self'.
Proof.
  intros H Hg Hok. destruct r as [[]|e].
  - revert H. destruct f; cbn [setattr]; run_setter;
      setter_branches v;
      intros H; inversion H; subst; clear H;
      destruct g; try congruence; exact Hok.
  - now rewrite (setattr_raise_unchanged f v e self self' H).
Qed.

Lemma setattr_preserves (f : field) (v : value) (r : result unit)
    (self self' : WeatherObservation) :
  well_formed v -> constraints_not_negative self ->
  setattr ucd f v self = (r, self') -> constraints_not_negative self'.
Proof.
  intros Hw Hc H g. destruct r as [[]|e].
  - assert (Hdec : g = f \/ g <> f) by (destruct g, f; (now left) || (right; discriminate)).
    destruct Hdec as [->|Hne].
    + exact (setattr_ok_field f v self self' Hw H).
    + exact (setattr_frame _ f g v _ self self' H Hne (Hc g)).
  - rewrite (setattr_raise_unchanged f v e self self' H). apply Hc.
Qed.

(** ** The constructor *)

Lemma init_assign_all (c co la lo t w ot n : value) (self : WeatherObservation) :
  __init__ ucd c co la lo t w ot n self
  = assign_all ucd (in_order c co la lo t w ot n) self.
Proof.
  unfold __init__, in_order. cbn [assign_all setattr]. unfold bind, ret.
  repeat match goal with
    | |- context [match ?m ?s with _ => _ end] =>
        match type of (m s) with
        | (result unit * WeatherObservation)%type =>
            destruct (m s) as [[[]|?] ?]; try reflexivity
        end
    end.
Qed.

Lemma assign_all_outcome (l : list (field * value)) (self : WeatherObservation) :
  fst (assign_all ucd l self)
  = match first_error ucd l with Some e => Raise e | None => Ok tt end.
Proof.
  revert self. induction l as [|[f v] l IH]; intros self; [reflexivity|].
  cbn [assign_all first_error]. unfold bind.
  rewrite <- (setattr_outcome f v self).
  destruct (setattr ucd f v self) as [[[]|e] self1]; cbn [fst]; [apply IH|reflexivity].
Qed.

Lemma assign_all_fields (l : list (field * value)) (self self' : WeatherObservation) :
  Forall (fun fv => well_formed (snd fv)) l ->
  assign_all ucd l self = (Ok tt, self') ->
  forall g,
    field_ok (fun w => negb (negative w)) g self \/ In g (map fst l) ->
    field_ok (fun w => negb (negative w)) g self'.
Proof.
  revert self. induction l as [|[f v] l IH]; intros self Hw H g Hg.
  - cbn in H. injection H as <-. destruct Hg as [Hg|[]]. exact Hg.
  - cbn [assign_all] in H. unfold bind in H.
    destruct (setattr ucd f v self) as [[[]|e] self1] eqn:Hs; [|discriminate].
    inversion Hw as [|? ? Hv Hl]; subst. cbn [snd] in Hv.
    apply (IH self1 Hl H g).
    assert (Hdec : g = f \/ g <> f)
      by (destruct g, f; (now left) || (right; discriminate)).
    destruct Hdec as [->|Hne].
    + left. exact (setattr_ok_field f v self self1 Hv Hs).
    + destruct Hg as [Hg|[Hg|Hg]].
      * left. exact (setattr_frame _ f g v _ self self1 Hs Hne Hg).
      * cbn in Hg. congruence.
      * now right.
Qed.

Lemma new_constraints (c co la lo t w ot n : value) (self : WeatherObservation) :
  Forall well_formed [c; co; la; lo; t; w; ot; n] ->
  new ucd c co la lo t w ot n = Ok self -> constraints_not_negative self.
Proof.
  intros Hw. unfold new. rewrite init_assign_all.
  destruct (assign_all ucd (in_order c co la lo t w ot n) fresh)
    as [[[]|e] self1] eqn:Ha; [|discriminate].
  intros H; injection H as <-. intros g.
  apply (assign_all_fields (in_order c co la lo t w ot n) fresh self1);
    [|exact Ha|].
  - unfold in_order.
    repeat match goal with
      | H : Forall _ (_ :: _) |- _ => inversion H; subst; clear H
      end.
    repeat (apply Forall_cons; [assumption|]). apply Forall_nil.
  - right. destruct g; cbn; tauto.
Qed.

Lemma live_constraints (self : WeatherObservation) :
  live ucd self -> constraints_not_negative self.
Proof.
  induction 1 as [c co la lo t w ot n self Hw Hn | self f v r self' _ IH Hw Hs].
  - exact (new_constraints c co la lo t w ot n self Hw Hn).
  - exact (setattr_preserves f v r self self' Hw IH Hs).
Qed.

Lemma new_first_error (c co la lo t w ot n : value) :
  match first_error ucd (in_order c co la lo t w ot n) with
  | Some e => new ucd c co la lo t w ot n = Raise e
  | None => exists self, new ucd c co la lo t w ot n = Ok self
  end.
Proof.
  unfold new. rewrite init_assign_all.
  pose proof (assign_all_outcome (in_order c co la lo t w ot n) fresh) as Ho.
  destruct (assign_all ucd (in_order c co la lo t w ot n) fresh) as [r self1].
  cbn [fst] in Ho. subst r.
  destruct (first_error ucd (in_order c co la lo t w ot n)) as [e|].
  - reflexivity.
  - now exists self1.
Qed.

(** ** [to_float] and the exceptions of [float()] *)

Lemma builtin_float_raises (v : value) (e : exn) :
  builtin_float ucd v = Raise e ->
  e = TypeError \/ e = ValueError \/
  (e = OverflowError /\ exists n, v = VInt n /\ of_int n = None).
Proof.
  destruct v as [|b|n|y|s|t]; cbn [builtin_float]; intros H;
    try discriminate; try (injection H as <-; now left).
  - destruct (of_int n) eqn:Hn; [discriminate|]. injection H as <-.
    right; right. split; [reflexivity|]. now exists n.
  - destruct (of_str ucd s); [discriminate|]. injection H as <-. right; now left.
Qed.

(** Every [InvalidDataError] of [to_float] names the field. *)
Lemma to_float_names_field (name : str) (v : value) (msg : str) :
  to_float ucd name v = Raise (InvalidDataError msg) ->
  msg = name ++ lit " must be a number." /\ occurs_in name msg.
Proof.
  unfold to_float. destruct (builtin_float ucd v) as [x|e] eqn:Hb; [discriminate|].
  destruct (builtin_float_raises v e Hb) as [->|[->|[-> _]]]; cbn;
    intros H; try discriminate; injection H as <-;
    (split; [reflexivity|]); exists [], (lit " must be a number."); reflexivity.
Qed.

(** [float()] raising [TypeError] or [ValueError] becomes an
    [InvalidDataError]; its [OverflowError] passes through. *)
Lemma to_float_raise (name : str) (v : value) (e : exn) :
  builtin_float ucd v = Raise e ->
  to_float ucd name v =
    match e with
    | OverflowError => Raise OverflowError
    | _ => Raise (InvalidDataError (name ++ lit " must be a number."))
    end.
Proof.
  intros Hb. unfold to_float. rewrite Hb.
  destruct (builtin_float_raises v e Hb) as [->|[->|[-> _]]]; reflexivity.
Qed.

(** The text ["abc"] as latitude: the setter raises [InvalidDataError]
    with a message that contains the name of the field, and leaves the
    instance as it was. *)
Lemma latitude_abc_raises (self : WeatherObservation) :
  latitude_setter ucd (VStr (lit "abc")) self
    = (Raise (InvalidDataError (lit "latitude must be a number.")), self) /\
  occurs_in (lit "latitude") (lit "latitude must be a number.").
Proof.
  split; [reflexivity|]. exists [], (lit " must be a number."). reflexivity.
Qed.

(** ** The body of the [notes] setter *)

Lemma notes_setter_body (v : value) (self : WeatherObservation) :
  notes_setter v self =
    match v with
    | VNone => (Ok tt, set___notes None self)
    | VStr s => (Ok tt, set___notes (Some (sanitize_text s)) self)
    | _ => (Raise (InvalidDataError (lit "Notes must be a string or None")), self)
    end.
Proof. destruct v; reflexivity. Qed.

End WithUnicode.
End Milestone1Facts.

(* ===================================================================== *)
(** * Loading the module *)
(* ===================================================================== *)

Module SyntaxFacts.
Import Milestone1 Syntax.

Lemma line_162_rejected : def_header_ok (tokenize line_162) = false.
Proof. vm_compute; reflexivity. Qed.

(** The parameter list stops at [->]: after the name [self] only [:], [=],
    [,] or [)] can follow. *)
Lemma line_162_parameters :
  parameters 16 (skipn 3 (tokenize line_162)) = None.
Proof. vm_compute; reflexivity. Qed.

(** After a parameter name, [->] ends the parameter list without its
    closing parenthesis. *)
Lemma parameters_stop_at_arrow (fuel : nat) (p : string) (rest : list token) :
  parameters fuel (NAME p :: OP "->" :: rest) = None.
Proof.
  destruct fuel as [|fuel]; [reflexivity|].
  lazy beta iota zeta delta [parameters parameter].
  destruct (is_keyword p); reflexivity.
Qed.

(** Whatever the names and whatever follows: a header whose first parameter
    is followed by [->] is rejected. *)
Lemma arrow_after_parameter_rejected (f p : string) (rest : list token) :
  def_header_ok (NAME "def" :: NAME f :: OP "(" :: NAME p :: OP "->" :: rest)
  = false.
Proof.
  lazy beta iota zeta delta [def_header_ok].
  rewrite parameters_stop_at_arrow. destruct (is_keyword f); reflexivity.
Qed.

Lemma only_line_162_rejected :
  filter (fun h => negb (def_header_ok (tokenize (snd h)))) def_headers
  = [(162%nat, line_162)].
Proof. vm_compute; reflexivity. Qed.

(** With the comma the header parses. *)
Lemma line_162_with_comma :
  def_header_ok (tokenize "def notes(self, value: Optional[str]) -> None:")
  = true.
Proof. vm_compute; reflexivity. Qed.

Lemma import_raises : import_module = Raise SyntaxError.
Proof. vm_compute; reflexivity. Qed.

Lemma after_import_raises (A : Type) (body : result A) :
  after_import body = Raise SyntaxError.
Proof. unfold after_import. now rewrite import_raises. Qed.

End SyntaxFacts.

(* ===================================================================== *)
(** * The claims *)
(* ===================================================================== *)

Module Specification.
Import Text Float Milestone1 Syntax.
Import TextFacts FloatFacts RoundingFacts Milestone1Facts SyntaxFacts.

(** C1. The header of the [notes] setter (line 162) is not a [def] header
    of Python: it is the only one of the file that does not parse, so
    compiling the module raises [SyntaxError] and whatever a program would
    do with the module (construct, set, get, [to_dict]) ends in that
    exception; so does every call of the [notes] setter. *)
Theorem module_does_not_load :
  def_header_ok (tokenize line_162) = false /\
  filter (fun h => negb (def_header_ok (tokenize (snd h)))) def_headers
    = [(162%nat, line_162)] /\
  import_module = Raise SyntaxError /\
  (forall (A : Type) (body : result A), after_import body = Raise SyntaxError).
Proof.
  split; [exact line_162_rejected|].
  split; [exact only_line_162_rejected|].
  split; [exact import_raises|].
  exact after_import_raises.
Qed.

(** C2. On the scenario's arguments the definitions build an instance, and
    [to_dict] gives the mapping [paris_actual], whose texts have a space
    between every two characters: it is not the mapping the scenario
    expects. Through the module as it is, the construction ends in
    [SyntaxError]. *)
Theorem paris_scenario_to_dict (ucd : UnicodeData) :
  new ucd paris_city paris_country paris_latitude paris_longitude
      paris_temperature_c paris_windspeed_kmh paris_observation_time
      notes_default = Ok paris_instance /\
  to_dict paris_instance = (Ok paris_actual, paris_instance) /\
  paris_actual <> paris_expected /\
  after_import
    (new ucd paris_city paris_country paris_latitude paris_longitude
         paris_temperature_c paris_windspeed_kmh paris_observation_time
         notes_default) = Raise SyntaxError.
Proof.
  split; [vm_compute; reflexivity|].
  split; [vm_compute; reflexivity|].
  split; [discriminate|].
  apply after_import_raises.
Qed.

(** C3. [sanitize_text(s)] is [s] without its leading and trailing
    whitespace, with one space put between every two neighbouring
    characters of what remains; it is a total function on text. *)
Theorem sanitize_text_strips_then_spaces (s : str) :
  exists t, stripped_of s t /\ spaced t (sanitize_text s).
Proof.
  exists (strip s). split.
  - apply strip_stripped_of.
  - rewrite sanitize_text_eq. apply join_chars_spaced.
Qed.

(** C4. Setting [country] to ["us"] returns, and the getter then gives
    ["U S"], not ["US"]. *)
Theorem country_us_is_stored_spaced (ucd : UnicodeData) (self : WeatherObservation) :
  exists self',
    country_setter ucd (VStr (lit "us")) self = (Ok tt, self') /\
    country self' = (Ok (VStr (lit "U S")), self') /\
    lit "U S" <> lit "US".
Proof.
  eexists. split; [reflexivity|]. split; [reflexivity|]. discriminate.
Qed.

(** C5. The setter of the wind speed stores a NaN and the getter returns
    it, although a NaN is not at least zero ([0 <= nan] is false): the
    check of line 142 is [v < 0], which is false for a NaN. The setters of
    latitude, longitude and temperature, whose checks are written
    [not (lo <= v <= hi)], raise [InvalidDataError] on the same value. *)
Theorem windspeed_kmh_setter_stores_nan (ucd : UnicodeData)
    (self : WeatherObservation) :
  windspeed_kmh_setter ucd (VFloat nan) self
    = (Ok tt, set___windspeed_kmh nan self) /\
  windspeed_kmh (set___windspeed_kmh nan self)
    = (Ok (VFloat nan), set___windspeed_kmh nan self) /\
  at_least_zero nan = false /\
  le f0 nan = false /\
  latitude_setter ucd (VFloat nan) self
    = (Raise (InvalidDataError (lit "Latitude must be between -90 and 90")),
       self) /\
  longitude_setter ucd (VFloat nan) self
    = (Raise (InvalidDataError (lit "Longitude must be between -180 and 180")),
       self) /\
  temperature_c_setter ucd (VFloat nan) self
    = (Raise (InvalidDataError (lit "Temperature seems unrealistic")), self).
Proof.
  split; [reflexivity|]. split; [reflexivity|]. split; [reflexivity|].
  split; [reflexivity|]. split; [reflexivity|]. split; reflexivity.
Qed.

(** With the [notes] setter read with the two parameters its header names,
    the constructor given a NaN wind speed returns: an instance whose wind
    speed is not at least zero is live. *)
Lemma nan_windspeed_is_live_not_at_least_zero :
  ~ (forall ucd self, live ucd self -> constraints_at_least_zero self).
Proof.
  intros H.
  destruct (new ascii_only paris_city paris_country paris_latitude paris_longitude
              paris_temperature_c (VFloat nan) paris_observation_time
              notes_default) as [self|e] eqn:Hn; [|vm_compute in Hn; discriminate].
  assert (Hl : live ascii_only self).
  { apply (live_new _ _ _ _ _ _ _ _ _ self) in Hn; [exact Hn|].
    repeat (apply Forall_cons; [try exact I; try reflexivity|]).
    all: try apply Forall_nil; try apply of_decimal_valid. }
  specialize (H ascii_only self Hl Fwindspeed_kmh).
  vm_compute in Hn. injection Hn as <-.
  destruct H as [x [Hx Hz]]. cbn in Hx. injection Hx as <-. discriminate.
Qed.

(** What the setters do keep: every live instance satisfies the
    constraints of its fields, the one on the wind speed being only that it
    is not negative (at least zero, or a NaN); the constructor assigns in
    the order city, country, latitude, longitude, temperature_c,
    windspeed_kmh, observation_time, notes, raises the exception of the
    first setter that raises and returns an instance only when none does;
    and an assignment to a field of an instance that satisfies these
    constraints, whether it returns or raises, leaves an instance that
    satisfies them. *)
Lemma live_instances_keep_constraints :
  (forall ucd self, live ucd self -> constraints_not_negative self) /\
  (forall ucd c co la lo t w ot n,
     match first_error ucd (in_order c co la lo t w ot n) with
     | Some e => new ucd c co la lo t w ot n = Raise e
     | None => exists self, new ucd c co la lo t w ot n = Ok self
     end) /\
  (forall ucd f v r self self',
     well_formed v -> constraints_not_negative self ->
     setattr ucd f v self = (r, self') -> constraints_not_negative self').
Proof.
  split; [|split].
  - intros ucd self Hl.
    induction Hl as [c co la lo t w ot n self Hw Hn | self f v r self' _ IH Hw Hs].
    + exact (new_constraints ucd c co la lo t w ot n self Hw Hn).
    + exact (setattr_preserves ucd f v r self self' Hw IH Hs).
  - exact new_first_error.
  - intros ucd f v r self self'. apply setattr_preserves.
Qed.

(** The instance of the scenario is live and satisfies the constraints. *)
Lemma live_instances_keep_constraints_witness :
  live ascii_only paris_instance /\ constraints_not_negative paris_instance.
Proof.
  assert (Hl : live ascii_only paris_instance).
  { apply (live_new ascii_only paris_city paris_country paris_latitude
             paris_longitude paris_temperature_c paris_windspeed_kmh
             paris_observation_time notes_default).
    - repeat (apply Forall_cons; [first [exact I | vm_compute; reflexivity]|]).
      apply Forall_nil.
    - vm_compute; reflexivity. }
  split; [exact Hl|].
  exact (proj1 live_instances_keep_constraints ascii_only paris_instance Hl).
Defined.

(** C6. Setting the latitude to the [int] [10**400], a number above 90, or
    to [-(10**400)], a number below -90, raises [OverflowError], which is
    not an [InvalidDataError]: the conversion of [to_float] raises before
    the range check of line 106 is reached, and the instance is left as it
    was. *)
Theorem latitude_setter_huge_int_overflows (ucd : UnicodeData)
    (self : WeatherObservation) :
  90 < 10 ^ 400 /\ - (10 ^ 400) < -90 /\
  latitude_setter ucd (VInt (10 ^ 400)) self = (Raise OverflowError, self) /\
  latitude_setter ucd (VInt (- (10 ^ 400))) self = (Raise OverflowError, self) /\
  is_a OverflowError cls_InvalidDataError = false /\
  (forall msg, OverflowError <> InvalidDataError msg).
Proof.
  assert (Hp : builtin_float ucd (VInt (10 ^ 400)) = Raise OverflowError)
    by (vm_compute; reflexivity).
  assert (Hm : builtin_float ucd (VInt (- (10 ^ 400))) = Raise OverflowError)
    by (vm_compute; reflexivity).
  split; [vm_compute; reflexivity|]. split; [vm_compute; reflexivity|].
  split; [|split; [|split; [reflexivity | discriminate]]].
  - unfold latitude_setter, bind, call.
    now rewrite (to_float_raise ucd (lit "latitude") _ _ Hp).
  - unfold latitude_setter, bind, call.
    now rewrite (to_float_raise ucd (lit "latitude") _ _ Hm).
Qed.

(** Where the conversion returns, the range check of the latitude setter
    is the closed interval: once [to_float] has coerced the value to [x],
    the setter stores [x], so that the getter returns it, when the value of
    [x] is in [[-90, 90]], and raises [InvalidDataError] otherwise (a NaN
    and the infinities are outside), leaving the instance as it was. *)
Lemma latitude_setter_range (ucd : UnicodeData) (v : value) (x : float)
    (self : WeatherObservation) :
  well_formed v -> to_float ucd (lit "latitude") v = Ok x ->
  (within (-90 # 1) (90 # 1) x = true ->
     latitude_setter ucd v self = (Ok tt, set___latitude x self) /\
     latitude (set___latitude x self)
       = (Ok (VFloat x), set___latitude x self)) /\
  (within (-90 # 1) (90 # 1) x = false ->
     latitude_setter ucd v self =
       (Raise (InvalidDataError (lit "Latitude must be between -90 and 90")),
        self)) /\
  ((exists msg, fst (latitude_setter ucd v self) = Raise (InvalidDataError msg))
   <-> within (-90 # 1) (90 # 1) x = false).
Proof.
  intros Hw Hx. rewrite (latitude_setter_coerced ucd v x self Hw Hx).
  destruct (within (-90 # 1) (90 # 1) x).
  - split; [intros _; split; reflexivity|]. split; [discriminate|].
    split; [intros [msg H]; discriminate | discriminate].
  - split; [discriminate|]. split; [reflexivity|].
    split; [reflexivity | intros _; eexists; reflexivity].
Qed.

(** 90 and -90 are stored and read back, 95 and -91 raise. *)
Lemma latitude_setter_range_witness :
  (latitude_setter ascii_only (VInt 90) fresh
     = (Ok tt, set___latitude f90 fresh) /\
   latitude (set___latitude f90 fresh)
     = (Ok (VFloat f90), set___latitude f90 fresh)) /\
  (latitude_setter ascii_only (VInt (-90)) fresh
     = (Ok tt, set___latitude (neg f90) fresh) /\
   latitude (set___latitude (neg f90) fresh)
     = (Ok (VFloat (neg f90)), set___latitude (neg f90) fresh)) /\
  latitude_setter ascii_only (VInt 95) fresh
    = (Raise (InvalidDataError (lit "Latitude must be between -90 and 90")),
       fresh) /\
  latitude_setter ascii_only (VInt (-91)) fresh
    = (Raise (InvalidDataError (lit "Latitude must be between -90 and 90")),
       fresh).
Proof.
  split; [|split; [|split]].
  - apply (latitude_setter_range ascii_only (VInt 90) f90 fresh I eq_refl).
    vm_compute; reflexivity.
  - apply (latitude_setter_range ascii_only (VInt (-90)) (neg f90) fresh I eq_refl).
    vm_compute; reflexivity.
  - eapply (latitude_setter_range ascii_only (VInt 95) _ fresh I eq_refl).
    vm_compute; reflexivity.
  - eapply (latitude_setter_range ascii_only (VInt (-91)) _ fresh I eq_refl).
    vm_compute; reflexivity.
Defined.

(** C7. Setting the wind speed to the [int] [-(10**400)], a negative
    number, raises [OverflowError], which is not an [InvalidDataError]: the
    conversion of [to_float] raises before the check of line 142 is
    reached, and the instance is left as it was. *)
Theorem windspeed_kmh_setter_huge_negative_int_overflows (ucd : UnicodeData)
    (self : WeatherObservation) :
  - (10 ^ 400) < 0 /\
  windspeed_kmh_setter ucd (VInt (- (10 ^ 400))) self
    = (Raise OverflowError, self) /\
  is_a OverflowError cls_InvalidDataError = false /\
  (forall msg, OverflowError <> InvalidDataError msg).
Proof.
  assert (Hm : builtin_float ucd (VInt (- (10 ^ 400))) = Raise OverflowError)
    by (vm_compute; reflexivity).
  split; [vm_compute; reflexivity|].
  split; [|split; [reflexivity | discriminate]].
  unfold windspeed_kmh_setter, bind, call.
  now rewrite (to_float_raise ucd (lit "windspeed_kmh") _ _ Hm).
Qed.

(** Where the conversion returns, the check of the wind speed setter is
    the sign: once [to_float] has coerced the value to [x], the setter
    raises [InvalidDataError] when [x] is negative, leaving the instance as
    it was, and otherwise stores [x], so that the getter returns it. A
    [float] is coerced to itself, and an [int] that [float()] converts is
    coerced to a negative [x] exactly when it is negative. *)
Lemma windspeed_kmh_setter_negative (ucd : UnicodeData) (v : value) (x : float)
    (self : WeatherObservation) :
  to_float ucd (lit "windspeed_kmh") v = Ok x ->
  (negative x = true ->
     windspeed_kmh_setter ucd v self =
       (Raise (InvalidDataError (lit "Windspeed cannot be negative")), self)) /\
  (negative x = false ->
     windspeed_kmh_setter ucd v self = (Ok tt, set___windspeed_kmh x self) /\
     windspeed_kmh (set___windspeed_kmh x self)
       = (Ok (VFloat x), set___windspeed_kmh x self)) /\
  ((exists msg,
      fst (windspeed_kmh_setter ucd v self) = Raise (InvalidDataError msg))
   <-> negative x = true) /\
  (forall y, v = VFloat y -> x = y) /\
  (forall n, v = VInt n -> negative x = (n <? 0)).
Proof.
  intros Hx. rewrite (windspeed_kmh_setter_coerced ucd v x self Hx).
  assert (Hf : forall y, v = VFloat y -> x = y).
  { intros y ->. cbn in Hx. now injection Hx. }
  assert (Hi : forall n, v = VInt n -> negative x = (n <? 0)).
  { intros n ->. apply to_float_ok in Hx. cbn [builtin_float] in Hx.
    destruct (of_int n) as [x'|] eqn:Hn; [|discriminate]. injection Hx as ->.
    exact (of_int_negative n x Hn). }
  destruct (negative x).
  - split; [reflexivity|]. split; [discriminate|].
    split; [split; [reflexivity | intros _; eexists; reflexivity]|].
    split; assumption.
  - split; [discriminate|]. split; [intros _; split; reflexivity|].
    split; [split; [intros [msg H]; discriminate | discriminate]|].
    split; assumption.
Qed.

(** -0.1 and the [int] -3 raise, 0 is stored and read back. *)
Lemma windspeed_kmh_setter_negative_witness :
  windspeed_kmh_setter ascii_only (VFloat (neg (of_decimal false 1 (-1)))) fresh
    = (Raise (InvalidDataError (lit "Windspeed cannot be negative")), fresh) /\
  windspeed_kmh_setter ascii_only (VInt (-3)) fresh
    = (Raise (InvalidDataError (lit "Windspeed cannot be negative")), fresh) /\
  (windspeed_kmh_setter ascii_only (VInt 0) fresh
     = (Ok tt, set___windspeed_kmh (S754_zero false) fresh) /\
   windspeed_kmh (set___windspeed_kmh (S754_zero false) fresh)
     = (Ok (VFloat (S754_zero false)), set___windspeed_kmh (S754_zero false) fresh)).
Proof.
  split; [|split].
  - apply (windspeed_kmh_setter_negative ascii_only
             (VFloat (neg (of_decimal false 1 (-1))))
             (neg (of_decimal false 1 (-1))) fresh eq_refl).
    vm_compute; reflexivity.
  - eapply (windspeed_kmh_setter_negative ascii_only (VInt (-3)) _ fresh eq_refl).
    vm_compute; reflexivity.
  - apply (windspeed_kmh_setter_negative ascii_only (VInt 0) (S754_zero false)
             fresh eq_refl).
    vm_compute; reflexivity.
Defined.

(** C8. [float(10**400)] raises [OverflowError], which the handler of
    [to_float] does not catch: [to_float] and the latitude setter raise
    [OverflowError] there, not [InvalidDataError]. *)
Theorem to_float_overflow_escapes (ucd : UnicodeData) (name : str)
    (self : WeatherObservation) :
  builtin_float ucd (VInt (10 ^ 400)) = Raise OverflowError /\
  to_float ucd name (VInt (10 ^ 400)) = Raise OverflowError /\
  latitude_setter ucd (VInt (10 ^ 400)) self = (Raise OverflowError, self).
Proof.
  assert (Hb : builtin_float ucd (VInt (10 ^ 400)) = Raise OverflowError)
    by (vm_compute; reflexivity).
  split; [exact Hb|]. split.
  - exact (to_float_raise ucd name _ _ Hb).
  - unfold latitude_setter, bind, call.
    now rewrite (to_float_raise ucd (lit "latitude") _ _ Hb).
Qed.

(** C9. The [notes] setter is never defined: its header does not parse, so
    every call of it through the module ends in [SyntaxError], whatever the
    value. *)
Theorem notes_setter_never_runs (v : value) (self : WeatherObservation) :
  def_header_ok (tokenize line_162) = false /\
  after_import (fst (notes_setter v self)) = Raise SyntaxError.
Proof. split; [exact line_162_rejected | apply after_import_raises]. Qed.

(** C10. A setter that raises (an [InvalidDataError] or any other
    exception) leaves every attribute of the instance as it was. *)
Theorem failed_setter_leaves_instance (ucd : UnicodeData) (f : field) (v : value)
    (e : exn) (self self' : WeatherObservation) :
  setattr ucd f v self = (Raise e, self') -> self' = self.
Proof.
  destruct f; cbn [setattr]; run_setter; setter_branches v;
    intros H; inversion H; reflexivity.
Qed.

(** Setting the latitude of the scenario's instance to 95 raises and leaves
    the instance as it was. *)
Lemma failed_setter_leaves_instance_witness :
  setattr ascii_only Flatitude (VInt 95) paris_instance
    = (Raise (InvalidDataError (lit "Latitude must be between -90 and 90")),
       paris_instance) /\
  snd (setattr ascii_only Flatitude (VInt 95) paris_instance) = paris_instance.
Proof.
  split; [vm_compute; reflexivity|].
  apply (failed_setter_leaves_instance ascii_only Flatitude (VInt 95)
           (InvalidDataError (lit "Latitude must be between -90 and 90"))).
  vm_compute; reflexivity.
Defined.

End Specification.

(* ===================================================================== *)
(** * Further properties: attributes, setters and [to_dict] together *)
(* ===================================================================== *)

Module AttributeFacts.
Import Text Float Milestone1 TextFacts FloatFacts RoundingFacts Milestone1Facts.

Ltac run_getter :=
  unfold city, country, latitude, longitude, temperature_c, windspeed_kmh,
    observation_time, notes, read.

Lemma field_eq_dec (f g : field) : {f = g} + {f <> g}.
Proof. decide equality. Qed.

(** ** Whitespace-only texts *)

Lemma lstrip_blank (s : str) : lstrip s = [] <-> blank s = true.
Proof.
  unfold blank. induction s as [|c s IH]; simpl; [tauto|].
  destruct (isspace c); simpl; [exact IH|]. split; discriminate.
Qed.

Lemma strip_blank (s : str) : truthy (strip s) = false <-> blank s = true.
Proof.
  rewrite <- lstrip_blank. unfold strip, rstrip. split.
  - intros H. destruct (lstrip s) as [|c r] eqn:Hl; [reflexivity|].
    exfalso.
    destruct (rev (lstrip (rev (c :: r)))) as [|d t] eqn:Hr; [|discriminate].
    apply (f_equal (@rev _)) in Hr. rewrite rev_involutive in Hr. cbn [rev] in Hr.
    apply lstrip_blank in Hr.
    assert (Hc : isspace c = true).
    { unfold blank in Hr. rewrite forallb_forall in Hr. apply Hr.
      apply (proj1 (in_rev (c :: r) c)). now left. }
    now rewrite (lstrip_head s c r Hl) in Hc.
  - intros ->. reflexivity.
Qed.

(** ** Writes to the attributes *)

Lemma setattr_ok_writes ucd (f : field) (v : value) (self self' : WeatherObservation) :
  setattr ucd f v self = (Ok tt, self') ->
  exists upd, writes f upd /\ forall o, setattr ucd f v o = (Ok tt, upd o).
Proof.
  destruct f; cbn [setattr]; run_setter; setter_branches v;
    intros H; try discriminate H;
    eexists; (split; [constructor | intros o; reflexivity]).
Qed.

Lemma setattr_ok_upd ucd (f : field) (v : value) (self self' : WeatherObservation) :
  setattr ucd f v self = (Ok tt, self') ->
  exists upd, writes f upd /\ self' = upd self /\
              forall o, setattr ucd f v o = (Ok tt, upd o).
Proof.
  intros H. destruct (setattr_ok_writes ucd f v self self' H) as [upd [Hw Hu]].
  exists upd. repeat split; try assumption.
  rewrite Hu in H. now injection H.
Qed.

Lemma writes_overwrite (f : field) upd upd' (o : WeatherObservation) :
  writes f upd -> writes f upd' -> upd' (upd o) = upd' o.
Proof. intros H H'. destruct H; inversion H'; reflexivity. Qed.

Lemma writes_commute (f g : field) upd upd' (o : WeatherObservation) :
  writes f upd -> writes g upd' -> f <> g -> upd (upd' o) = upd' (upd o).
Proof.
  intros H H'. destruct H; destruct H'; intros Hne;
    first [reflexivity | exfalso; apply Hne; reflexivity].
Qed.

Lemma writes_frame (f g : field) upd (o : WeatherObservation) :
  writes f upd -> g <> f -> fst (getattr g (upd o)) = fst (getattr g o).
Proof.
  intros H. destruct H; destruct g; intros Hne;
    try (exfalso; apply Hne; reflexivity);
    cbn [getattr]; run_getter; cbn;
    match goal with |- context [match ?a with _ => _ end] => destruct a end;
    reflexivity.
Qed.

Lemma getattr_state (f : field) (self : WeatherObservation) :
  snd (getattr f self) = self.
Proof.
  destruct f; cbn [getattr]; run_getter;
    match goal with |- context [match ?a with _ => _ end] => destruct a end;
    reflexivity.
Qed.

(** ** What a setter that returns has stored *)

Lemma setattr_stored ucd (f : field) (v : value) (self self' : WeatherObservation) :
  setattr ucd f v self = (Ok tt, self') ->
  exists u, getattr f self' = (Ok u, self') /\ stored_as ucd f v u.
Proof.
  destruct f; cbn [setattr stored_as coercion_name].
  - unfold city_setter, raise, assign.
    destruct (not_nonempty_str v) eqn:Hn; [discriminate|].
    destruct (not_nonempty_str_false v Hn) as [s [-> _]].
    intros H; injection H as <-. eexists. split; [reflexivity|]. now exists s.
  - unfold country_setter, raise, assign.
    destruct (not_nonempty_str v) eqn:Hn; [discriminate|].
    destruct (not_nonempty_str_false v Hn) as [s [-> _]].
    intros H; injection H as <-. eexists. split; [reflexivity|]. now exists s.
  - unfold latitude_setter, bind, call, raise, assign.
    destruct (to_float ucd (lit "latitude") v) as [x|e] eqn:Hx; [|discriminate].
    destruct (negb _); [discriminate|].
    intros H; injection H as <-. eexists. split; [reflexivity|].
    exists (lit "latitude"), x. now repeat split.
  - unfold longitude_setter, bind, call, raise, assign.
    destruct (to_float ucd (lit "Longitude") v) as [x|e] eqn:Hx; [|discriminate].
    destruct (negb _); [discriminate|].
    intros H; injection H as <-. eexists. split; [reflexivity|].
    exists (lit "Longitude"), x. now repeat split.
  - unfold temperature_c_setter, bind, call, raise, assign.
    destruct (to_float ucd (lit "Temperature_c") v) as [x|e] eqn:Hx; [|discriminate].
    destruct (negb _); [discriminate|].
    intros H; injection H as <-. eexists. split; [reflexivity|].
    exists (lit "Temperature_c"), x. now repeat split.
  - unfold windspeed_kmh_setter, bind, call, raise, assign.
    destruct (to_float ucd (lit "windspeed_kmh") v) as [x|e] eqn:Hx; [|discriminate].
    destruct (lt x f0); [discriminate|].
    intros H; injection H as <-. eexists. split; [reflexivity|].
    exists (lit "windspeed_kmh"), x. now repeat split.
  - unfold observation_time_setter, raise, assign.
    destruct (not_nonempty_str v) eqn:Hn; [discriminate|].
    destruct (not_nonempty_str_false v Hn) as [s [-> _]].
    intros H; injection H as <-. eexists. split; [reflexivity|]. now exists s.
  - unfold notes_setter, raise, assign.
    destruct v as [|b|n|y|s|t]; cbn [as_str]; try discriminate;
      intros H; injection H as <-; eexists; (split; [reflexivity|]).
    + now left.
    + right. now exists s.
Qed.

(** ** The exceptions *)

Lemma to_float_raise_inv ucd (name : str) (v : value) (e : exn) :
  to_float ucd name v = Raise e ->
  e = InvalidDataError (name ++ lit " must be a number.") \/
  (e = OverflowError /\ exists n, v = VInt n /\ of_int n = None).
Proof.
  unfold to_float. destruct (builtin_float ucd v) as [x|e'] eqn:Hb; [discriminate|].
  destruct (builtin_float_raises ucd v e' Hb) as [->|[->|[-> Hn]]]; cbn;
    intros H; injection H as <-; [now left | now left | now right].
Qed.

Lemma setattr_raise_inv ucd (f : field) (v : value) (e : exn)
    (self self' : WeatherObservation) :
  setattr ucd f v self = (Raise e, self') ->
  (exists msg, e = InvalidDataError msg) \/
  (e = OverflowError /\ coercion_name f <> None /\
   exists n, v = VInt n /\ of_int n = None).
Proof.
  destruct f; cbn [setattr coercion_name];
    try (run_setter; setter_branches v; intros H; inversion H;
         left; eexists; reflexivity);
    unfold latitude_setter, longitude_setter, temperature_c_setter,
      windspeed_kmh_setter, bind, call, raise, assign;
    match goal with
    | |- context [to_float ucd ?n v] =>
        destruct (to_float ucd n v) as [x|e'] eqn:Hx
    end;
    try (match goal with
         | |- context [if ?c then _ else _] => destruct c
         end; intros H; inversion H; left; eexists; reflexivity);
    intros H; injection H as <- _;
    (destruct (to_float_raise_inv ucd _ v e' Hx) as [->|[-> Hn]];
     [left; eexists; reflexivity | right; repeat split; [discriminate | exact Hn]]).
Qed.

(** ** Invariants of live instances, from what the setters store *)

Section Invariant.
Variable ucd : UnicodeData.
Variable P : field -> result value -> Prop.
Hypothesis established :
  forall f v self self',
    well_formed v -> setattr ucd f v self = (Ok tt, self') ->
    P f (fst (getattr f self')).

Lemma setattr_keeps (f g : field) (v : value) (r : result unit)
    (self self' : WeatherObservation) :
  well_formed v -> setattr ucd f v self = (r, self') ->
  P g (fst (getattr g self)) \/ (g = f /\ r = Ok tt) ->
  P g (fst (getattr g self')).
Proof.
  intros Hw Hs Hg. destruct r as [[]|e].
  - destruct (field_eq_dec g f) as [->|Hne].
    + exact (established f v self self' Hw Hs).
    + destruct Hg as [Hg|[Hg _]]; [|contradiction].
      destruct (setattr_ok_upd ucd f v self self' Hs) as [upd [Hu [-> _]]].
      now rewrite (writes_frame f g upd self Hu Hne).
  - rewrite (setattr_raise_unchanged ucd f v e self self' Hs).
    destruct Hg as [Hg|[_ Hg]]; [exact Hg | discriminate].
Qed.

Lemma assign_all_keeps (l : list (field * value)) (self self' : WeatherObservation) :
  Forall (fun fv => well_formed (snd fv)) l ->
  assign_all ucd l self = (Ok tt, self') ->
  forall g,
    P g (fst (getattr g self)) \/ In g (map fst l) ->
    P g (fst (getattr g self')).
Proof.
  revert self. induction l as [|[f v] l IH]; intros self Hw H g Hg.
  - cbn in H. injection H as <-. destruct Hg as [Hg|[]]. exact Hg.
  - cbn [assign_all] in H. unfold bind in H.
    destruct (setattr ucd f v self) as [[[]|e] self1] eqn:Hs; [|discriminate].
    inversion Hw as [|? ? Hv Hl]; subst. cbn [snd] in Hv.
    apply (IH self1 Hl H g).
    destruct (field_eq_dec g f) as [->|Hne].
    + left. apply (setattr_keeps f f v (Ok tt) self self1 Hv Hs). now right.
    + destruct Hg as [Hg|[Hg|Hg]].
      * left. apply (setattr_keeps f g v (Ok tt) self self1 Hv Hs). now left.
      * cbn in Hg. congruence.
      * now right.
Qed.

Lemma live_invariant (self : WeatherObservation) :
  live ucd self -> forall g, P g (fst (getattr g self)).
Proof.
  induction 1 as [c co la lo t w ot n self Hw Hn | self f v r self' _ IH Hw Hs];
    intros g.
  - unfold new in Hn. rewrite init_assign_all in Hn.
    destruct (assign_all ucd (in_order c co la lo t w ot n) fresh)
      as [[[]|e] self1] eqn:Ha; [|discriminate].
    injection Hn as <-.
    apply (assign_all_keeps (in_order c co la lo t w ot n) fresh self1);
      [|exact Ha|].
    + unfold in_order.
      repeat match goal with
        | H : Forall _ (_ :: _) |- _ => inversion H; subst; clear H
        end.
      repeat (apply Forall_cons; [assumption|]). apply Forall_nil.
    + right. destruct g; cbn; tauto.
  - apply (setattr_keeps f g v r self self' Hw Hs). left. apply IH.
Qed.

End Invariant.

(** ** [to_dict] *)

Lemma to_dict_cases (self : WeatherObservation) :
  (exists v1 v2 v3 v4 v5 v6 v7 v8,
     getattr Fcity self = (Ok v1, self) /\
     getattr Fcountry self = (Ok v2, self) /\
     getattr Flatitude self = (Ok v3, self) /\
     getattr Flongitude self = (Ok v4, self) /\
     getattr Ftemperature_c self = (Ok v5, self) /\
     getattr Fwindspeed_kmh self = (Ok v6, self) /\
     getattr Fobservation_time self = (Ok v7, self) /\
     getattr Fnotes self = (Ok v8, self) /\
     to_dict self =
       (Ok [ (key Fcity, v1); (key Fcountry, v2); (key Flatitude, v3);
             (key Flongitude, v4); (key Ftemperature_c, v5);
             (key Fwindspeed_kmh, v6); (key Fobservation_time, v7);
             (key Fnotes, v8) ], self)) \/
  (to_dict self = (Raise AttributeError, self) /\
   exists f, getattr f self = (Raise AttributeError, self)).
Proof.
  destruct self as [a1 a2 a3 a4 a5 a6 a7 a8].
  destruct a1 as [v1|]; [|right; split; [reflexivity | exists Fcity; reflexivity]].
  destruct a2 as [v2|]; [|right; split; [reflexivity | exists Fcountry; reflexivity]].
  destruct a3 as [v3|]; [|right; split; [reflexivity | exists Flatitude; reflexivity]].
  destruct a4 as [v4|]; [|right; split; [reflexivity | exists Flongitude; reflexivity]].
  destruct a5 as [v5|];
    [|right; split; [reflexivity | exists Ftemperature_c; reflexivity]].
  destruct a6 as [v6|];
    [|right; split; [reflexivity | exists Fwindspeed_kmh; reflexivity]].
  destruct a7 as [v7|];
    [|right; split; [reflexivity | exists Fobservation_time; reflexivity]].
  destruct a8 as [v8|]; [|right; split; [reflexivity | exists Fnotes; reflexivity]].
  left. do 8 eexists. repeat split.
Qed.

(** ** Assignments in a row *)

Lemma assign_all_frame ucd (l : list (field * value)) (g : field)
    (self self' : WeatherObservation) :
  assign_all ucd l self = (Ok tt, self') -> ~ In g (map fst l) ->
  fst (getattr g self') = fst (getattr g self).
Proof.
  revert self. induction l as [|[f v] l IH]; intros self H Hg.
  - cbn in H. now injection H as <-.
  - cbn [assign_all] in H. unfold bind in H.
    destruct (setattr ucd f v self) as [[[]|e] self1] eqn:Hs; [|discriminate].
    cbn [map fst In] in Hg.
    rewrite (IH self1 H) by tauto.
    destruct (setattr_ok_upd ucd f v self self1 Hs) as [upd [Hu [-> _]]].
    apply (writes_frame f g upd self Hu). intros ->. tauto.
Qed.

Lemma assign_all_stored ucd (l : list (field * value))
    (self self' : WeatherObservation) :
  NoDup (map fst l) -> assign_all ucd l self = (Ok tt, self') ->
  forall f v, In (f, v) l ->
    exists u, getattr f self' = (Ok u, self') /\ stored_as ucd f v u.
Proof.
  revert self. induction l as [|[f0 v0] l IH]; intros self Hnd H f v Hin.
  - destruct Hin.
  - cbn [assign_all] in H. unfold bind in H.
    destruct (setattr ucd f0 v0 self) as [[[]|e] self1] eqn:Hs; [|discriminate].
    cbn [map fst] in Hnd. inversion Hnd as [|? ? Hnotin Hnd']; subst.
    destruct Hin as [Heq|Hin].
    + injection Heq as -> ->.
      destruct (setattr_stored ucd f v self self1 Hs) as [u [Hget Hst]].
      exists u. split; [|exact Hst].
      pose proof (assign_all_frame ucd l f self1 self' H Hnotin) as Hfr.
      rewrite Hget in Hfr. cbn [fst] in Hfr.
      rewrite (surjective_pairing (getattr f self')), Hfr, getattr_state.
      reflexivity.
    + exact (IH self1 Hnd' H f v Hin).
Qed.

Lemma assign_all_raise ucd (l : list (field * value)) (e : exn)
    (self self' : WeatherObservation) :
  assign_all ucd l self = (Raise e, self') ->
  exists f v s0 s0', In (f, v) l /\ setattr ucd f v s0 = (Raise e, s0').
Proof.
  revert self. induction l as [|[f v] l IH]; intros self H.
  - discriminate.
  - cbn [assign_all] in H. unfold bind in H.
    destruct (setattr ucd f v self) as [[[]|e'] self1] eqn:Hs.
    + destruct (IH self1 H) as [f' [v' [s0 [s0' [Hin Hr]]]]].
      exists f', v', s0, s0'. split; [now right | exact Hr].
    + injection H as <- <-. exists f, v, self, self1. split; [now left | exact Hs].
Qed.

(** ** Joining the characters of a trimmed text *)

Lemma join_chars_last (t r : str) (c : char) :
  join (lit " ") (chars t) = r ++ [c] -> exists r', t = r' ++ [c].
Proof.
  revert r. induction t as [|a [|b t] IH]; intros r H.
  - destruct r; discriminate.
  - exists []. destruct r as [|x [|y r]]; cbn in H; try discriminate.
    now injection H as ->.
  - rewrite join_chars_cons in H.
    destruct r as [|x [|y r]]; cbn [app] in H; try discriminate.
    + injection H as _ _ H.
      apply (f_equal (@List.length _)) in H.
      change (List.length (join (lit " ") (chars (b :: t))) = 0%nat) in H.
      rewrite join_chars_length in H. cbn [List.length] in H. lia.
    + injection H as _ _ H.
      change (join (lit " ") (chars (b :: t)) = r ++ [c]) in H.
      destruct (IH r H) as [r' Hr'].
      exists (a :: r'). rewrite Hr'. reflexivity.
Qed.

Lemma join_chars_trimmed (t : str) :
  trimmed t -> trimmed (join (lit " ") (chars t)).
Proof.
  intros [H1 H2]. split.
  - intros c r H. destruct t as [|a [|b t]]; cbn in H; try discriminate;
      injection H as -> _; exact (H1 _ _ eq_refl).
  - intros c r H. destruct (join_chars_last t r c H) as [r' Hr']. exact (H2 c r' Hr').
Qed.

(** ** ASCII texts *)

Lemma strip_forallb (p : char -> bool) (s : str) :
  forallb p s = true -> forallb p (strip s) = true.
Proof.
  intros H. destruct (strip_stripped_of s) as [l [r [Hs _]]].
  rewrite Hs, !forallb_app in H.
  apply andb_prop in H. destruct H as [_ H].
  apply andb_prop in H. now destruct H.
Qed.

Lemma join_chars_forallb (p : char -> bool) (t : str) :
  p 32%N = true -> forallb p t = true ->
  forallb p (join (lit " ") (chars t)) = true.
Proof.
  intros Hsp. induction t as [|a [|b t] IH]; intros H.
  - reflexivity.
  - exact H.
  - rewrite join_chars_cons. cbn [forallb] in *.
    apply andb_prop in H. destruct H as [Ha H].
    rewrite Ha, Hsp. cbn [andb]. now apply IH.
Qed.

Lemma sanitize_text_ascii (s : str) :
  ascii_text s = true -> ascii_text (sanitize_text s) = true.
Proof.
  intros H. rewrite sanitize_text_eq. unfold ascii_text.
  apply join_chars_forallb; [reflexivity|]. now apply strip_forallb.
Qed.

Lemma upper_ascii ucd (s : str) :
  ascii_text s = true -> upper ucd s = map ascii_upper s.
Proof.
  unfold ascii_text. induction s as [|c s IH]; intros H; [reflexivity|].
  cbn [forallb] in H. apply andb_prop in H. destruct H as [Hc H].
  cbn [upper flat_map map]. fold (upper ucd s). rewrite (IH H).
  unfold upper_char, ascii_upper. destruct (between 97 122 c); [reflexivity|].
  now rewrite Hc.
Qed.

Lemma ascii_upper_not_lower (c : char) : ascii_lower_case (ascii_upper c) = false.
Proof.
  unfold ascii_lower_case, ascii_upper, between.
  destruct (N.leb 97 c && N.leb c 122)%bool eqn:H.
  - apply andb_prop in H. destruct H as [H1 H2].
    apply N.leb_le in H1. apply N.leb_le in H2.
    apply andb_false_iff. left. apply N.leb_gt. lia.
  - exact H.
Qed.

End AttributeFacts.

(* ===================================================================== *)
(** * Further statements about the module *)
(* ===================================================================== *)

Module Further.
Import Text Float Milestone1.
Import TextFacts FloatFacts RoundingFacts Milestone1Facts AttributeFacts.

(** X1. Once [to_float] has coerced the value to [x], the longitude setter
    stores [x], so that the getter returns it, when its value is in
    [[-180, 180]], and raises [InvalidDataError] otherwise (NaN and the
    infinities included), leaving the instance as it was. *)
Theorem longitude_setter_range (ucd : UnicodeData) (v : value) (x : float)
    (self : WeatherObservation) :
  well_formed v -> to_float ucd (lit "Longitude") v = Ok x ->
  (within (-180 # 1) (180 # 1) x = true ->
     longitude_setter ucd v self = (Ok tt, set___longitude x self) /\
     longitude (set___longitude x self)
       = (Ok (VFloat x), set___longitude x self)) /\
  (within (-180 # 1) (180 # 1) x = false ->
     longitude_setter ucd v self =
       (Raise (InvalidDataError (lit "Longitude must be between -180 and 180")),
        self)) /\
  ((exists msg, fst (longitude_setter ucd v self) = Raise (InvalidDataError msg))
   <-> within (-180 # 1) (180 # 1) x = false).
Proof.
  intros Hw Hx. rewrite (longitude_setter_coerced ucd v x self Hw Hx).
  destruct (within (-180 # 1) (180 # 1) x).
  - split; [intros _; split; reflexivity|]. split; [discriminate|].
    split; [intros [msg H]; discriminate | discriminate].
  - split; [discriminate|]. split; [reflexivity|].
    split; [reflexivity | intros _; eexists; reflexivity].
Qed.

(** 180 and -180 are stored and read back, 180.5 raises. *)
Lemma longitude_setter_range_witness :
  (longitude_setter ascii_only (VInt 180) fresh
     = (Ok tt, set___longitude f180 fresh) /\
   longitude (set___longitude f180 fresh)
     = (Ok (VFloat f180), set___longitude f180 fresh)) /\
  (longitude_setter ascii_only (VInt (-180)) fresh
     = (Ok tt, set___longitude (neg f180) fresh) /\
   longitude (set___longitude (neg f180) fresh)
     = (Ok (VFloat (neg f180)), set___longitude (neg f180) fresh)) /\
  longitude_setter ascii_only (VStr (lit "180.5")) fresh
    = (Raise (InvalidDataError (lit "Longitude must be between -180 and 180")),
       fresh).
Proof.
  split; [|split].
  - apply (longitude_setter_range ascii_only (VInt 180) f180 fresh I eq_refl).
    vm_compute; reflexivity.
  - apply (longitude_setter_range ascii_only (VInt (-180)) (neg f180) fresh I
             eq_refl).
    vm_compute; reflexivity.
  - eapply (longitude_setter_range ascii_only (VStr (lit "180.5")) _ fresh I
              eq_refl).
    vm_compute; reflexivity.
Defined.

(** X2. Once [to_float] has coerced the value to [x], the temperature
    setter stores [x], so that the getter returns it, when its value is in
    [[-100, 70]], and raises [InvalidDataError] otherwise (NaN and the
    infinities included), leaving the instance as it was. *)
Theorem temperature_c_setter_range (ucd : UnicodeData) (v : value) (x : float)
    (self : WeatherObservation) :
  well_formed v -> to_float ucd (lit "Temperature_c") v = Ok x ->
  (within (-100 # 1) (70 # 1) x = true ->
     temperature_c_setter ucd v self = (Ok tt, set___temperature_c x self) /\
     temperature_c (set___temperature_c x self)
       = (Ok (VFloat x), set___temperature_c x self)) /\
  (within (-100 # 1) (70 # 1) x = false ->
     temperature_c_setter ucd v self =
       (Raise (InvalidDataError (lit "Temperature seems unrealistic")), self)) /\
  ((exists msg,
      fst (temperature_c_setter ucd v self) = Raise (InvalidDataError msg))
   <-> within (-100 # 1) (70 # 1) x = false).
Proof.
  intros Hw Hx. rewrite (temperature_c_setter_coerced ucd v x self Hw Hx).
  destruct (within (-100 # 1) (70 # 1) x).
  - split; [intros _; split; reflexivity|]. split; [discriminate|].
    split; [intros [msg H]; discriminate | discriminate].
  - split; [discriminate|]. split; [reflexivity|].
    split; [reflexivity | intros _; eexists; reflexivity].
Qed.

(** 70 and -100 are stored and read back, 70.1 and a NaN raise. *)
Lemma temperature_c_setter_range_witness :
  (temperature_c_setter ascii_only (VInt 70) fresh
     = (Ok tt, set___temperature_c f70 fresh) /\
   temperature_c (set___temperature_c f70 fresh)
     = (Ok (VFloat f70), set___temperature_c f70 fresh)) /\
  (temperature_c_setter ascii_only (VInt (-100)) fresh
     = (Ok tt, set___temperature_c (neg f100) fresh) /\
   temperature_c (set___temperature_c (neg f100) fresh)
     = (Ok (VFloat (neg f100)), set___temperature_c (neg f100) fresh)) /\
  temperature_c_setter ascii_only (VStr (lit "70.1")) fresh
    = (Raise (InvalidDataError (lit "Temperature seems unrealistic")), fresh) /\
  temperature_c_setter ascii_only (VFloat nan) fresh
    = (Raise (InvalidDataError (lit "Temperature seems unrealistic")), fresh).
Proof.
  split; [|split; [|split]].
  - apply (temperature_c_setter_range ascii_only (VInt 70) f70 fresh I eq_refl).
    vm_compute; reflexivity.
  - apply (temperature_c_setter_range ascii_only (VInt (-100)) (neg f100) fresh I
             eq_refl).
    vm_compute; reflexivity.
  - eapply (temperature_c_setter_range ascii_only (VStr (lit "70.1")) _ fresh I
              eq_refl).
    vm_compute; reflexivity.
  - apply (temperature_c_setter_range ascii_only (VFloat nan) nan fresh eq_refl
             eq_refl).
    vm_compute; reflexivity.
Defined.

(** X3. The setters of [city], [country] and [observation_time] raise
    [InvalidDataError], leaving the instance as it was, exactly when the
    value is not a text or is a text of whitespace only (the empty text
    included), and return exactly when it is a text with a character that
    is not whitespace. *)
Theorem text_setters_reject_blank (ucd : UnicodeData) (f : field) (v : value)
    (self : WeatherObservation) :
  In f [Fcity; Fcountry; Fobservation_time] ->
  ((exists msg, setattr ucd f v self = (Raise (InvalidDataError msg), self))
   <-> (forall s, v = VStr s -> blank s = true)) /\
  ((exists self', setattr ucd f v self = (Ok tt, self'))
   <-> (exists s, v = VStr s /\ blank s = false)).
Proof.
  intros Hf.
  assert (Hn : not_nonempty_str v = true <-> (forall s, v = VStr s -> blank s = true)).
  { unfold not_nonempty_str. destruct v as [|b|n|y|s|t]; cbn [as_str];
      try (split; [intros _ s H; discriminate H | reflexivity]).
    rewrite negb_true_iff, strip_blank. split.
    - intros H s' Hs'. now injection Hs' as <-.
    - intros H. now apply H. }
  assert (Hy : not_nonempty_str v = false <-> (exists s, v = VStr s /\ blank s = false)).
  { split.
    - intros H. destruct (not_nonempty_str_false v H) as [s [-> Hs]].
      exists s. split; [reflexivity|].
      destruct (blank s) eqn:Hb; [|reflexivity].
      apply strip_blank in Hb. congruence.
    - intros [s [-> Hb]]. apply not_true_is_false. intros Hs.
      rewrite (proj1 Hn Hs s eq_refl) in Hb. discriminate. }
  cbn [In] in Hf. destruct Hf as [<-|[<-|[<-|[]]]]; cbn [setattr];
    unfold city_setter, country_setter, observation_time_setter, raise, assign;
    rewrite <- Hn, <- Hy; destruct (not_nonempty_str v);
    (split;
      (split;
        [ first [intros _; reflexivity | intros [? H]; discriminate H]
        | first [intros H; discriminate H | intros _; eexists; reflexivity] ])).
Qed.

(** A city of spaces raises, [" Oslo"] is accepted. *)
Lemma text_setters_reject_blank_witness :
  (exists msg,
     setattr ascii_only Fcity (VStr (lit "   ")) fresh
     = (Raise (InvalidDataError msg), fresh)) /\
  (exists self', setattr ascii_only Fcity (VStr (lit " Oslo")) fresh = (Ok tt, self')).
Proof.
  split.
  - apply (proj1 (text_setters_reject_blank ascii_only Fcity (VStr (lit "   "))
                    fresh (or_introl eq_refl))).
    intros s H. injection H as <-. reflexivity.
  - apply (proj2 (text_setters_reject_blank ascii_only Fcity (VStr (lit " Oslo"))
                    fresh (or_introl eq_refl))).
    exists (lit " Oslo"). split; reflexivity.
Defined.

(** X4. For a value of one of the types [NoneType], [bool], [int], [float]
    and [str], [to_float(name, value)] returns exactly what [float(value)]
    returns when it returns, a binary64; it passes floats through
    unchanged, NaN and the infinities included. When [float(value)] raises,
    [to_float] raises [InvalidDataError] with the message [name + " must be
    a number."], which contains [name], except for an [int] too large for a
    float, where it raises [OverflowError]; on these values it raises
    nothing else. *)
Theorem to_float_outcomes (ucd : UnicodeData) (name : str) (v : value) :
  builtin_typed v = true ->
  (forall x, to_float ucd name v = Ok x <-> builtin_float ucd v = Ok x) /\
  (forall x, well_formed v -> to_float ucd name v = Ok x -> is_float64 x = true) /\
  (forall x, v = VFloat x -> to_float ucd name v = Ok x) /\
  (forall e, to_float ucd name v = Raise e ->
     (e = InvalidDataError (name ++ lit " must be a number.") /\
      occurs_in name (name ++ lit " must be a number.")) \/
     e = OverflowError) /\
  (to_float ucd name v = Raise OverflowError
   <-> exists n, v = VInt n /\ of_int n = None).
Proof.
  intros _.
  split; [intros x; apply to_float_ok|].
  split; [intros x; apply to_float_valid|].
  split; [intros x ->; reflexivity|].
  split.
  - intros e H. destruct (to_float_raise_inv ucd name v e H) as [->|[-> _]].
    + left. split; [reflexivity|].
      exists [], (lit " must be a number."). reflexivity.
    + now right.
  - split.
    + intros H. destruct (to_float_raise_inv ucd name v _ H) as [H'|[_ Hn]];
        [discriminate H' | exact Hn].
    + intros [n [-> Hn]]. unfold to_float. cbn [builtin_float]. now rewrite Hn.
Qed.

(** The text ["abc"] and [None] raise [InvalidDataError] naming the field,
    the [int] 10**400 raises [OverflowError]. *)
Lemma to_float_outcomes_witness :
  (forall e, to_float ascii_only (lit "latitude") (VStr (lit "abc")) = Raise e ->
     e = InvalidDataError (lit "latitude must be a number.")) /\
  (forall e, to_float ascii_only (lit "latitude") VNone = Raise e ->
     e = InvalidDataError (lit "latitude must be a number.")) /\
  to_float ascii_only (lit "latitude") (VInt (10 ^ 400)) = Raise OverflowError.
Proof.
  split; [|split].
  - intros e H.
    destruct (proj1 (proj2 (proj2 (proj2
                (to_float_outcomes ascii_only (lit "latitude")
                   (VStr (lit "abc")) eq_refl)))) e H) as [[He _]|He].
    + exact He.
    + rewrite He in H. vm_compute in H. discriminate H.
  - intros e H.
    destruct (proj1 (proj2 (proj2 (proj2
                (to_float_outcomes ascii_only (lit "latitude")
                   VNone eq_refl)))) e H) as [[He _]|He].
    + exact He.
    + rewrite He in H. vm_compute in H. discriminate H.
  - apply (proj2 (proj2 (proj2 (proj2 (proj2
             (to_float_outcomes ascii_only (lit "latitude")
                (VInt (10 ^ 400)) eq_refl)))))).
    exists (10 ^ 400). split; [reflexivity | vm_compute; reflexivity].
Defined.

(** X5. Given values of the types [NoneType], [bool], [int], [float] and
    [str], a setter that raises, and the constructor when it raises, raise
    [InvalidDataError] (a [WeatherAPIError]) or, for an [int] too large for
    a float given to a numeric field, [OverflowError]: never
    [LocationNotFoundError], never a bare [TypeError] or [ValueError]. *)
Theorem setters_raise_invalid_data_or_overflow (ucd : UnicodeData) :
  (forall f v e self self',
     builtin_typed v = true ->
     setattr ucd f v self = (Raise e, self') ->
     (exists msg, e = InvalidDataError msg) \/
     (e = OverflowError /\ coercion_name f <> None /\
      exists n, v = VInt n /\ of_int n = None)) /\
  (forall c co la lo t w ot n e,
     forallb builtin_typed [c; co; la; lo; t; w; ot; n] = true ->
     new ucd c co la lo t w ot n = Raise e ->
     (is_a e cls_InvalidDataError = true /\ is_a e cls_WeatherAPIError = true /\
      is_a e cls_LocationNotFoundError = false) \/
     (e = OverflowError /\
      exists k, In (VInt k) [la; lo; t; w] /\ of_int k = None)).
Proof.
  split; [intros f v e self self' _; apply setattr_raise_inv|].
  intros c co la lo t w ot n e _ H. unfold new in H. rewrite init_assign_all in H.
  destruct (assign_all ucd (in_order c co la lo t w ot n) fresh)
    as [[[]|e'] self1] eqn:Ha; [discriminate|].
  injection H as ->.
  destruct (assign_all_raise ucd _ e fresh self1 Ha) as [f [v [s0 [s0' [Hin Hr]]]]].
  destruct (setattr_raise_inv ucd f v e s0 s0' Hr) as [[msg ->]|[-> [Hc [k [-> Hk]]]]].
  - left. repeat split.
  - right. split; [reflexivity|]. exists k. split; [|exact Hk].
    unfold in_order in Hin. cbn [In] in Hin.
    repeat match type of Hin with
      | _ \/ _ => destruct Hin as [Hin|Hin]
      end;
      try (injection Hin as <- <-); try contradiction;
      try (exfalso; apply Hc; reflexivity); cbn [In]; tauto.
Qed.

(** [int] 10**400 as latitude: the constructor raises [OverflowError]. *)
Lemma setters_raise_invalid_data_or_overflow_witness :
  new ascii_only paris_city paris_country (VInt (10 ^ 400)) paris_longitude
      paris_temperature_c paris_windspeed_kmh paris_observation_time VNone
    = Raise OverflowError /\
  exists k,
    In (VInt k) [VInt (10 ^ 400); paris_longitude; paris_temperature_c;
                 paris_windspeed_kmh] /\ of_int k = None.
Proof.
  assert (H : new ascii_only paris_city paris_country (VInt (10 ^ 400))
                paris_longitude paris_temperature_c paris_windspeed_kmh
                paris_observation_time VNone = Raise OverflowError)
    by (vm_compute; reflexivity).
  split; [exact H|].
  destruct (proj2 (setters_raise_invalid_data_or_overflow ascii_only)
              paris_city paris_country (VInt (10 ^ 400)) paris_longitude
              paris_temperature_c paris_windspeed_kmh paris_observation_time
              VNone OverflowError eq_refl H) as [[Hi _]|[_ Hk]].
  - discriminate Hi.
  - exact Hk.
Defined.

(** X6. [to_dict] never changes the instance. It returns exactly when all
    eight attributes are set, and then gives the eight keys in the order
    city, country, latitude, longitude, temperature_c, windspeed_kmh,
    observation_time, notes, each with what its getter returns; otherwise
    it raises [AttributeError]. *)
Theorem to_dict_all_or_nothing (self : WeatherObservation) :
  snd (to_dict self) = self /\
  ((exists d, fst (to_dict self) = Ok d)
   <-> (forall f, exists v, fst (getattr f self) = Ok v)) /\
  (forall d, fst (to_dict self) = Ok d ->
     Forall2 (fun f kv => fst kv = key f /\ fst (getattr f self) = Ok (snd kv))
             all_fields d) /\
  (forall e, fst (to_dict self) = Raise e -> e = AttributeError).
Proof.
  destruct (to_dict_cases self)
    as [[v1 [v2 [v3 [v4 [v5 [v6 [v7 [v8 [H1 [H2 [H3 [H4 [H5 [H6 [H7 [H8 Hd]]]]]]]]]]]]]]]]
       |[Hd [f Hf]]]; rewrite Hd; cbn [fst snd].
  - split; [reflexivity|]. split; [|split].
    + split; [|intros _; eexists; reflexivity].
      intros _ f. destruct f; eexists;
        [rewrite H1|rewrite H2|rewrite H3|rewrite H4|rewrite H5|rewrite H6
        |rewrite H7|rewrite H8]; reflexivity.
    + intros d Hd'. injection Hd' as <-. unfold all_fields.
      repeat (apply Forall2_cons; [split; [reflexivity|]|]);
        try apply Forall2_nil;
        [rewrite H1|rewrite H2|rewrite H3|rewrite H4|rewrite H5|rewrite H6
        |rewrite H7|rewrite H8]; reflexivity.
    + intros e He. discriminate He.
  - split; [reflexivity|]. split; [|split].
    + split; [intros [d Hd']; discriminate Hd'|].
      intros H. destruct (H f) as [v Hv]. rewrite Hf in Hv. discriminate Hv.
    + intros d Hd'. discriminate Hd'.
    + intros e He. now injection He as <-.
Qed.

(** X7. On a live instance [to_dict] returns: a mapping with the eight keys
    in order, and the instance is as before. *)
Theorem to_dict_of_live_instance (ucd : UnicodeData) (self : WeatherObservation) :
  live ucd self ->
  exists d, to_dict self = (Ok d, self) /\ map fst d = map key all_fields.
Proof.
  intros Hl.
  pose proof (live_invariant ucd (fun _ r => exists u, r = Ok u)) as Hinv.
  assert (Hall : forall g, exists u, fst (getattr g self) = Ok u).
  { apply Hinv; [|exact Hl]. intros f v s s' _ Hs.
    destruct (setattr_stored ucd f v s s' Hs) as [u [Hu _]].
    exists u. now rewrite Hu. }
  destruct (to_dict_cases self)
    as [[v1 [v2 [v3 [v4 [v5 [v6 [v7 [v8 [_ [_ [_ [_ [_ [_ [_ [_ Hd]]]]]]]]]]]]]]]]
       |[_ [f Hf]]].
  - eexists. split; [exact Hd | reflexivity].
  - destruct (Hall f) as [u Hu]. rewrite Hf in Hu. discriminate Hu.
Qed.

(** The scenario's instance. *)
Lemma to_dict_of_live_instance_witness :
  exists d,
    to_dict paris_instance = (Ok d, paris_instance) /\
    map fst d = map key all_fields.
Proof.
  apply (to_dict_of_live_instance ascii_only paris_instance).
  apply (live_new ascii_only paris_city paris_country paris_latitude
           paris_longitude paris_temperature_c paris_windspeed_kmh
           paris_observation_time notes_default).
  - repeat (apply Forall_cons; [first [exact I | vm_compute; reflexivity]|]).
    apply Forall_nil.
  - vm_compute; reflexivity.
Defined.

(** X8. After an assignment that returns, the getter of that field returns
    the value as the setter stores it (sanitized text, upper-cased for the
    country; the coerced number; [None] or sanitized text for the notes),
    and the getter of every other field returns what it returned before. *)
Theorem getter_after_setter (ucd : UnicodeData) (f : field) (v : value)
    (self self' : WeatherObservation) :
  setattr ucd f v self = (Ok tt, self') ->
  (exists u, getattr f self' = (Ok u, self') /\ stored_as ucd f v u) /\
  (forall g, g <> f -> fst (getattr g self') = fst (getattr g self)).
Proof.
  intros H. split; [exact (setattr_stored ucd f v self self' H)|].
  intros g Hg. destruct (setattr_ok_upd ucd f v self self' H) as [upd [Hu [-> _]]].
  exact (writes_frame f g upd self Hu Hg).
Qed.

(** Setting the country of the scenario's instance to [" no "]: the country
    is stored as ["N O"], the city reads as before. *)
Lemma getter_after_setter_witness :
  setattr ascii_only Fcountry (VStr (lit " no ")) paris_instance
    = (Ok tt, set___country (lit "N O") paris_instance) /\
  (exists u,
     getattr Fcountry (set___country (lit "N O") paris_instance)
       = (Ok u, set___country (lit "N O") paris_instance) /\
     stored_as ascii_only Fcountry (VStr (lit " no ")) u) /\
  fst (getattr Fcity (set___country (lit "N O") paris_instance))
    = fst (getattr Fcity paris_instance).
Proof.
  assert (H : setattr ascii_only Fcountry (VStr (lit " no ")) paris_instance
              = (Ok tt, set___country (lit "N O") paris_instance))
    by (vm_compute; reflexivity).
  destruct (getter_after_setter ascii_only Fcountry (VStr (lit " no "))
              paris_instance _ H) as [Hst Hfr].
  split; [exact H|]. split; [exact Hst|].
  apply Hfr. discriminate.
Defined.

(** X9. The last assignment to a field wins: two assignments to the same
    field that both return leave the instance that the second alone
    leaves. *)
Theorem last_assignment_wins (ucd : UnicodeData) (f : field) (v w : value)
    (self s1 s2 : WeatherObservation) :
  setattr ucd f v self = (Ok tt, s1) ->
  setattr ucd f w s1 = (Ok tt, s2) ->
  setattr ucd f w self = (Ok tt, s2).
Proof.
  intros H1 H2.
  destruct (setattr_ok_upd ucd f v self s1 H1) as [u1 [Hw1 [-> _]]].
  destruct (setattr_ok_upd ucd f w (u1 self) s2 H2) as [u2 [Hw2 [-> Hall]]].
  rewrite Hall. now rewrite (writes_overwrite f u1 u2 self Hw1 Hw2).
Qed.

Lemma last_assignment_wins_witness :
  setattr ascii_only Flatitude (VInt 10) fresh
  = (Ok tt, set___latitude (of_decimal false 10 0) fresh).
Proof.
  apply (last_assignment_wins ascii_only Flatitude (VInt 90) (VInt 10) fresh
           (set___latitude f90 fresh)); vm_compute; reflexivity.
Defined.

(** X10. Assignments to two different fields that both return can be done
    in either order: the instance is the same at the end. *)
Theorem assignments_to_different_fields_commute (ucd : UnicodeData)
    (f g : field) (v w : value) (self s1 s2 : WeatherObservation) :
  f <> g ->
  setattr ucd f v self = (Ok tt, s1) ->
  setattr ucd g w s1 = (Ok tt, s2) ->
  exists s1', setattr ucd g w self = (Ok tt, s1') /\
              setattr ucd f v s1' = (Ok tt, s2).
Proof.
  intros Hne H1 H2.
  destruct (setattr_ok_upd ucd f v self s1 H1) as [u1 [Hw1 [-> Hall1]]].
  destruct (setattr_ok_upd ucd g w (u1 self) s2 H2) as [u2 [Hw2 [-> Hall2]]].
  exists (u2 self). split; [apply Hall2|].
  rewrite Hall1. now rewrite (writes_commute f g u1 u2 self Hw1 Hw2 Hne).
Qed.

Lemma assignments_to_different_fields_commute_witness :
  exists s1',
    setattr ascii_only Fcity (VStr (lit "Oslo")) fresh = (Ok tt, s1') /\
    setattr ascii_only Flatitude (VInt 60) s1'
    = (Ok tt, set___city (lit "O s l o") (set___latitude (of_decimal false 60 0) fresh)).
Proof.
  apply (assignments_to_different_fields_commute ascii_only Flatitude Fcity
           (VInt 60) (VStr (lit "Oslo")) fresh
           (set___latitude (of_decimal false 60 0) fresh));
    [discriminate | vm_compute; reflexivity | vm_compute; reflexivity].
Defined.

(** X11. [sanitize_text] is not idempotent: on a text whose stripped form
    has [n] characters, applying it twice gives [4n - 3] characters (for
    [n >= 1]) where once gives [2n - 1]; the second application changes
    nothing exactly when the stripped text has at most one character. So
    assigning to [city] what its getter returns changes the city. *)
Theorem sanitize_text_twice (s : str) :
  (List.length (sanitize_text (sanitize_text s))
   = 4 * List.length (strip s) - 3)%nat /\
  (sanitize_text (sanitize_text s) = sanitize_text s
   <-> (List.length (strip s) <= 1)%nat).
Proof.
  assert (Htwice : sanitize_text (sanitize_text s)
                   = join (lit " ") (chars (join (lit " ") (chars (strip s))))).
  { rewrite (sanitize_text_eq (sanitize_text s)), (sanitize_text_eq s).
    rewrite (strip_fixed _ (join_chars_trimmed _ (strip_trimmed s))).
    reflexivity. }
  assert (Hlen : (List.length (sanitize_text (sanitize_text s))
                  = 4 * List.length (strip s) - 3)%nat).
  { rewrite Htwice, !join_chars_length. lia. }
  split; [exact Hlen|]. split.
  - intros H. rewrite H in Hlen. rewrite sanitize_text_eq, join_chars_length in Hlen.
    lia.
  - intros H. rewrite Htwice, sanitize_text_eq.
    destruct (strip s) as [|c [|d t]]; [reflexivity | reflexivity |].
    cbn [List.length] in H. lia.
Qed.

(** X12. When the constructor returns, each argument was accepted by its
    setter, and [to_dict] of the new instance gives, under the eight keys in
    order, the arguments as the setters store them. *)
Theorem construct_then_to_dict (ucd : UnicodeData)
    (c co la lo t w ot n : value) (self : WeatherObservation) :
  new ucd c co la lo t w ot n = Ok self ->
  exists u1 u2 u3 u4 u5 u6 u7 u8,
    stored_as ucd Fcity c u1 /\ stored_as ucd Fcountry co u2 /\
    stored_as ucd Flatitude la u3 /\ stored_as ucd Flongitude lo u4 /\
    stored_as ucd Ftemperature_c t u5 /\ stored_as ucd Fwindspeed_kmh w u6 /\
    stored_as ucd Fobservation_time ot u7 /\ stored_as ucd Fnotes n u8 /\
    to_dict self =
      (Ok [ (key Fcity, u1); (key Fcountry, u2); (key Flatitude, u3);
            (key Flongitude, u4); (key Ftemperature_c, u5);
            (key Fwindspeed_kmh, u6); (key Fobservation_time, u7);
            (key Fnotes, u8) ], self).
Proof.
  intros H. unfold new in H. rewrite init_assign_all in H.
  destruct (assign_all ucd (in_order c co la lo t w ot n) fresh)
    as [[[]|e] self1] eqn:Ha; [|discriminate].
  injection H as ->.
  assert (Hnd : NoDup (map fst (in_order c co la lo t w ot n))).
  { cbn. repeat (apply NoDup_cons; [cbn; intuition discriminate|]). apply NoDup_nil. }
  pose proof (assign_all_stored ucd _ fresh self Hnd Ha) as Hst.
  destruct (Hst Fcity c) as [u1 [G1 S1]]; [cbn; tauto|].
  destruct (Hst Fcountry co) as [u2 [G2 S2]]; [cbn; tauto|].
  destruct (Hst Flatitude la) as [u3 [G3 S3]]; [cbn; tauto|].
  destruct (Hst Flongitude lo) as [u4 [G4 S4]]; [cbn; tauto|].
  destruct (Hst Ftemperature_c t) as [u5 [G5 S5]]; [cbn; tauto|].
  destruct (Hst Fwindspeed_kmh w) as [u6 [G6 S6]]; [cbn; tauto|].
  destruct (Hst Fobservation_time ot) as [u7 [G7 S7]]; [cbn; tauto|].
  destruct (Hst Fnotes n) as [u8 [G8 S8]]; [cbn; tauto|].
  exists u1, u2, u3, u4, u5, u6, u7, u8. repeat (split; [assumption|]).
  destruct (to_dict_cases self)
    as [[v1 [v2 [v3 [v4 [v5 [v6 [v7 [v8 [H1 [H2 [H3 [H4 [H5 [H6 [H7 [H8 Hd]]]]]]]]]]]]]]]]
       |[_ [f Hf]]].
  - rewrite Hd. congruence.
  - destruct f; congruence.
Qed.

(** The scenario: the mapping of [to_dict] is [paris_actual]. *)
Lemma construct_then_to_dict_witness :
  exists u1 u2 u3 u4 u5 u6 u7 u8,
    stored_as ascii_only Fcity paris_city u1 /\
    stored_as ascii_only Fcountry paris_country u2 /\
    stored_as ascii_only Flatitude paris_latitude u3 /\
    stored_as ascii_only Flongitude paris_longitude u4 /\
    stored_as ascii_only Ftemperature_c paris_temperature_c u5 /\
    stored_as ascii_only Fwindspeed_kmh paris_windspeed_kmh u6 /\
    stored_as ascii_only Fobservation_time paris_observation_time u7 /\
    stored_as ascii_only Fnotes notes_default u8 /\
    to_dict paris_instance =
      (Ok [ (key Fcity, u1); (key Fcountry, u2); (key Flatitude, u3);
            (key Flongitude, u4); (key Ftemperature_c, u5);
            (key Fwindspeed_kmh, u6); (key Fobservation_time, u7);
            (key Fnotes, u8) ], paris_instance).
Proof.
  apply (construct_then_to_dict ascii_only paris_city paris_country
           paris_latitude paris_longitude paris_temperature_c
           paris_windspeed_kmh paris_observation_time notes_default).
  vm_compute; reflexivity.
Defined.

(** X13. The city and the observation time of a live instance are always
    character-spaced texts: a non-empty text that neither starts nor ends
    with whitespace, with one space put between every two neighbouring
    characters; so their length is odd. *)
Theorem live_texts_are_spaced (ucd : UnicodeData) (f : field)
    (self : WeatherObservation) :
  live ucd self -> f = Fcity \/ f = Fobservation_time ->
  exists t a,
    getattr f self = (Ok (VStr a), self) /\
    truthy t = true /\ trimmed t /\ spaced t a /\
    (List.length a = 2 * (List.length t - 1) + 1)%nat.
Proof.
  intros Hl Hf.
  pose proof (live_invariant ucd
    (fun g r => g = Fcity \/ g = Fobservation_time ->
       exists t a, r = Ok (VStr a) /\ truthy t = true /\ trimmed t /\ spaced t a))
    as Hinv.
  destruct (Hinv) with (self := self) (g := f) as [t [a [Hr [Ht [Htr Hsp]]]]];
    [|exact Hl|exact Hf|].
  - clear. intros g v s s' _ Hs Hg.
    assert (Hcase : exists x, v = VStr x /\ truthy (strip x) = true /\
                       fst (getattr g s') = Ok (VStr (sanitize_text x))).
    { destruct Hg as [->| ->]; cbn [setattr] in Hs;
        unfold city_setter, observation_time_setter, raise, assign in Hs;
        destruct (not_nonempty_str v) eqn:Hn; try discriminate Hs;
        destruct (not_nonempty_str_false v Hn) as [x [-> Hx]];
        injection Hs as <-; exists x; repeat split; assumption. }
    destruct Hcase as [x [-> [Hx Hget]]].
    exists (strip x), (sanitize_text x). split; [exact Hget|].
    split; [exact Hx|]. split; [apply strip_trimmed|].
    rewrite sanitize_text_eq. apply join_chars_spaced.
  - exists t, a. split.
    + rewrite (surjective_pairing (getattr f self)), Hr, getattr_state. reflexivity.
    + repeat split; try assumption; try apply Htr; try apply Hsp.
      destruct Hsp as [Hlen _]. destruct t; [discriminate Ht|].
      cbn [List.length] in *. lia.
Qed.

(** The scenario's instance: its city is ["Paris"] spaced. *)
Lemma live_texts_are_spaced_witness :
  exists t a,
    getattr Fcity paris_instance = (Ok (VStr a), paris_instance) /\
    truthy t = true /\ trimmed t /\ spaced t a /\
    (List.length a = 2 * (List.length t - 1) + 1)%nat.
Proof.
  apply (live_texts_are_spaced ascii_only Fcity paris_instance); [|now left].
  apply (live_new ascii_only paris_city paris_country paris_latitude
           paris_longitude paris_temperature_c paris_windspeed_kmh
           paris_observation_time notes_default).
  - repeat (apply Forall_cons; [first [exact I | vm_compute; reflexivity]|]).
    apply Forall_nil.
  - vm_compute; reflexivity.
Defined.

(** X14. For a text of ASCII characters, the country is stored as the
    sanitized text with every letter a-z replaced by A-Z: as many
    characters as the sanitized text, none of them a lower-case ASCII
    letter. *)
Theorem country_is_upper_cased (ucd : UnicodeData) (s : str)
    (self self' : WeatherObservation) :
  ascii_text s = true ->
  setattr ucd Fcountry (VStr s) self = (Ok tt, self') ->
  exists u,
    getattr Fcountry self' = (Ok (VStr u), self') /\
    u = map ascii_upper (sanitize_text s) /\
    List.length u = List.length (sanitize_text s) /\
    existsb ascii_lower_case u = false.
Proof.
  intros Ha H. cbn [setattr] in H. unfold country_setter, raise, assign in H.
  destruct (not_nonempty_str (VStr s)); [discriminate H|].
  injection H as <-. cbn [text_of as_str].
  exists (upper ucd (sanitize_text s)).
  rewrite (upper_ascii ucd _ (sanitize_text_ascii s Ha)).
  split; [reflexivity|]. split; [reflexivity|]. split; [apply length_map|].
  induction (sanitize_text s) as [|c r IH]; [reflexivity|].
  cbn [map existsb]. now rewrite ascii_upper_not_lower, IH.
Qed.

Lemma country_is_upper_cased_witness :
  exists u,
    getattr Fcountry (set___country (lit "U S A") fresh)
      = (Ok (VStr u), set___country (lit "U S A") fresh) /\
    u = map ascii_upper (sanitize_text (lit " usa")) /\
    List.length u = List.length (sanitize_text (lit " usa")) /\
    existsb ascii_lower_case u = false.
Proof.
  apply (country_is_upper_cased ascii_only (lit " usa") fresh); reflexivity.
Defined.

(** X15. Whether an assignment returns or raises, and what it raises, does
    not depend on the instance: no setter looks at the current attributes. *)
Theorem validation_ignores_the_instance (ucd : UnicodeData) (f : field)
    (v : value) (self other : WeatherObservation) :
  fst (setattr ucd f v self) = fst (setattr ucd f v other).
Proof.
  destruct f; cbn [setattr]; run_setter; setter_branches v; reflexivity.
Qed.

End Further.
